(** * IndustrialWasteExchange: the waste-batch registry contract

    A shallow embedding of [blockchain/IndustrialWasteExchange.sol] and the
    properties of its batch lifecycle (creation, commitment, transfer).

    Solidity values are modelled as the contract declares them: [uint256]
    and [address] are integers ([Z]); the only arithmetic in the contract,
    [nextBatchId++], is checked (Solidity 0.8) and is written out as such.
    The storage mapping is a total function whose unwritten slots hold the
    all-zero record.  Contract code runs in a small state-and-error monad
    that keeps the storage as it is at the point of a failure; [transact]
    is the transaction boundary of the EVM, which discards the writes of a
    reverted call. *)

From Stdlib Require Import ZArith List String Bool Lia.
Import ListNotations.
Local Open Scope Z_scope.

(** ** Value types *)

Definition uint256 : Type := Z.
Definition address : Type := Z.

Definition MAX_UINT256 : Z := 2 ^ 256 - 1.

(** [address(0)] *)
Definition address0 : address := 0.

(** [enum WasteStatus]; the first constructor is the default (zero) value. *)
Inductive WasteStatus : Type :=
| CREATED
| COMMITTED
| TRANSFERRED.

Definition WasteStatus_eqb (a b : WasteStatus) : bool :=
  match a, b with
  | CREATED, CREATED => true
  | COMMITTED, COMMITTED => true
  | TRANSFERRED, TRANSFERRED => true
  | _, _ => false
  end.

(** [struct WasteBatch] *)
Record WasteBatch : Type := mkWasteBatch {
  batchId : uint256;
  category : string;
  quantity : uint256;
  currentOwner : address;
  committedBuyer : address;
  status : WasteStatus;
  createdAt : uint256
}.

(** The value of a mapping slot that was never written. *)
Definition zero_batch : WasteBatch :=
  mkWasteBatch 0 EmptyString 0 address0 address0 CREATED 0.

Definition set_currentOwner (a : address) (b : WasteBatch) : WasteBatch :=
  mkWasteBatch (batchId b) (category b) (quantity b) a
               (committedBuyer b) (status b) (createdAt b).

Definition set_committedBuyer (a : address) (b : WasteBatch) : WasteBatch :=
  mkWasteBatch (batchId b) (category b) (quantity b) (currentOwner b)
               a (status b) (createdAt b).

Definition set_status (s : WasteStatus) (b : WasteBatch) : WasteBatch :=
  mkWasteBatch (batchId b) (category b) (quantity b) (currentOwner b)
               (committedBuyer b) s (createdAt b).

(** The three events of the contract. *)
Inductive Event : Type :=
| WasteBatchCreated (id : uint256) (seller : address)
                    (cat : string) (qty : uint256)
| PurchaseCommitted (id : uint256) (buyer : address)
| WasteBatchTransferred (id : uint256) (from to : address).

(** ** Contract storage *)

Record State : Type := mkState {
  owner : address;                       (* Ownable: the administrator   *)
  in_flight : bool;                      (* ReentrancyGuard: the flag    *)
  nextBatchId : uint256;
  wasteBatches : uint256 -> WasteBatch;  (* mapping(uint256 => WasteBatch) *)
  events : list Event                    (* the log, oldest first        *)
}.

Definition upd (m : uint256 -> WasteBatch) (k : uint256) (v : WasteBatch)
  : uint256 -> WasteBatch :=
  fun k' => if Z.eqb k' k then v else m k'.

Definition with_in_flight (f : bool) (s : State) : State :=
  mkState (owner s) f (nextBatchId s) (wasteBatches s) (events s).

Definition with_nextBatchId (n : uint256) (s : State) : State :=
  mkState (owner s) (in_flight s) n (wasteBatches s) (events s).

Definition with_wasteBatches (m : uint256 -> WasteBatch) (s : State) : State :=
  mkState (owner s) (in_flight s) (nextBatchId s) m (events s).

Definition with_events (l : list Event) (s : State) : State :=
  mkState (owner s) (in_flight s) (nextBatchId s) (wasteBatches s) l.

(** What a call sees of its environment. *)
Record Env : Type := mkEnv {
  msg_sender : address;
  block_timestamp : uint256
}.

(** ** Failures *)

Inductive Error : Type :=
| Revert (reason : string)                      (* a failed [require]      *)
| OwnableUnauthorizedAccount (account : address)
| ReentrancyGuardReentrantCall
| Panic (code : Z).                             (* 0x11: checked overflow  *)

Inductive Outcome (A : Type) : Type :=
| Ok (a : A)
| Err (e : Error).
Arguments Ok {A} a.
Arguments Err {A} e.

(** ** The execution monad: storage is threaded through, and a failure
    returns the storage as it was when the failure happened. *)

Definition M (A : Type) : Type := State -> Outcome A * State.

Definition ret {A} (a : A) : M A := fun s => (Ok a, s).

Definition bind {A B} (m : M A) (k : A -> M B) : M B :=
  fun s =>
    match m s with
    | (Ok a, s') => k a s'
    | (Err e, s') => (Err e, s')
    end.

Declare Scope sol_scope.
Delimit Scope sol_scope with sol.
Notation "x <- m ;; k" := (bind m (fun x => k))
  (at level 61, m at next level, right associativity) : sol_scope.
Notation "m ;; k" := (bind m (fun _ => k))
  (at level 61, right associativity) : sol_scope.
Local Open Scope sol_scope.

Definition revert {A} (e : Error) : M A := fun s => (Err e, s).

(** [require(cond, reason)] *)
Definition require (cond : bool) (reason : string) : M unit :=
  if cond then ret tt else revert (Revert reason).

(** A read of [wasteBatches[id].field] (also through a storage pointer). *)
Definition sload {A} (id : uint256) (field : WasteBatch -> A) : M A :=
  fun s => (Ok (field (wasteBatches s id)), s).

(** A write to [wasteBatches[id]], whole or one field of it. *)
Definition sstore (id : uint256) (f : WasteBatch -> WasteBatch) : M unit :=
  fun s => (Ok tt, with_wasteBatches
                     (upd (wasteBatches s) id (f (wasteBatches s id))) s).

Definition read_nextBatchId : M uint256 :=
  fun s => (Ok (nextBatchId s), s).

(** [nextBatchId++]: checked arithmetic, a panic instead of a wrap-around. *)
Definition incr_nextBatchId : M unit :=
  fun s =>
    if nextBatchId s + 1 <=? MAX_UINT256
    then (Ok tt, with_nextBatchId (nextBatchId s + 1) s)
    else (Err (Panic 17), s).

Definition emit (e : Event) : M unit :=
  fun s => (Ok tt, with_events (events s ++ [e]) s).

(** The transaction boundary: a call that fails reverts, so that the
    storage after it is the storage before it. *)
Definition transact {A} (m : M A) : M A :=
  fun s =>
    match m s with
    | (Ok a, s') => (Ok a, s')
    | (Err e, _) => (Err e, s)
    end.

(** ** The inherited modifiers *)

(** Modelled from the spec: the [onlyOwner] modifier of the imported
    [Ownable] contract, which is not among the sources.  The caller's
    identity is compared against the stored administrator; any other
    caller is rejected. *)
Definition onlyOwner (env : Env) : M unit :=
  fun s =>
    if msg_sender env =? owner s
    then (Ok tt, s)
    else (Err (OwnableUnauthorizedAccount (msg_sender env)), s).

(** Modelled from the spec: the [nonReentrant] modifier of the imported
    [ReentrancyGuard] contract, which is not among the sources.  A
    per-call in-flight flag is held for the duration of the guarded body;
    this is its acquisition, and a call that finds the flag held fails at
    once. *)
Definition nonReentrantBefore : M unit :=
  fun s =>
    if in_flight s
    then (Err ReentrancyGuardReentrantCall, s)
    else (Ok tt, with_in_flight true s).

(** Modelled from the spec: the release of the in-flight flag of
    [ReentrancyGuard], which is not among the sources. *)
Definition nonReentrantAfter : M unit :=
  fun s => (Ok tt, with_in_flight false s).

(** Modelled from the spec: the [nonReentrant] modifier of
    [ReentrancyGuard], which is not among the sources: the flag is taken,
    the body of the function runs, the flag is released. *)
Definition nonReentrant {A} (body : M A) : M A :=
  nonReentrantBefore ;;
  r <- body ;;
  nonReentrantAfter ;;
  ret r.

(** ** The contract *)

(** [constructor() Ownable(msg.sender) { nextBatchId = 1; }] *)
Definition constructor (env : Env) : State :=
  mkState (msg_sender env) false 1 (fun _ => zero_batch) [].

Definition createWasteBatch (env : Env)
    (cat : string) (qty : uint256) (seller : address) : M uint256 :=
  onlyOwner env ;;
  require (qty >? 0) "Quantity must be > 0" ;;
  require (negb (seller =? address0)) "Invalid seller address" ;;
  id <- read_nextBatchId ;;
  sstore id (fun _ =>
    mkWasteBatch id cat qty seller address0 CREATED (block_timestamp env)) ;;
  incr_nextBatchId ;;
  emit (WasteBatchCreated id seller cat qty) ;;
  ret id.

Definition commitToPurchase_body (env : Env) (id : uint256) : M unit :=
  b_id <- sload id batchId ;;
  require (negb (b_id =? 0)) "Batch does not exist" ;;
  b_status <- sload id status ;;
  require (WasteStatus_eqb b_status CREATED) "Not available" ;;
  b_owner <- sload id currentOwner ;;
  require (negb (msg_sender env =? b_owner)) "Owner cannot buy" ;;
  sstore id (set_committedBuyer (msg_sender env)) ;;
  sstore id (set_status COMMITTED) ;;
  emit (PurchaseCommitted id (msg_sender env)).

Definition commitToPurchase (env : Env) (id : uint256) : M unit :=
  nonReentrant (commitToPurchase_body env id).

Definition transferWasteBatch_body (env : Env) (id : uint256) : M unit :=
  b_id <- sload id batchId ;;
  require (negb (b_id =? 0)) "Batch does not exist" ;;
  b_status <- sload id status ;;
  require (WasteStatus_eqb b_status COMMITTED) "Buyer not committed" ;;
  b_owner <- sload id currentOwner ;;
  require (msg_sender env =? b_owner) "Not batch owner" ;;
  previousOwner <- sload id currentOwner ;;
  buyer <- sload id committedBuyer ;;
  require (negb (buyer =? address0)) "No buyer committed" ;;
  sstore id (set_currentOwner buyer) ;;
  sstore id (set_status TRANSFERRED) ;;
  emit (WasteBatchTransferred id previousOwner buyer).

Definition transferWasteBatch (env : Env) (id : uint256) : M unit :=
  nonReentrant (transferWasteBatch_body env id).

(** A [view] function: it reads and never writes. *)
Definition getWasteBatch (id : uint256) : M WasteBatch :=
  b_id <- sload id batchId ;;
  require (negb (b_id =? 0)) "Batch not found" ;;
  sload id (fun b => b).

(** ** Transactions and reachable states *)

(** The state-changing entry points of the contract. *)
Inductive Call : Type :=
| CreateWasteBatch (cat : string) (qty : uint256) (seller : address)
| CommitToPurchase (id : uint256)
| TransferWasteBatch (id : uint256).

Record Tx : Type := mkTx {
  tx_env : Env;
  tx_call : Call
}.

(** The storage after a transaction (unchanged when the call reverts). *)
Definition step (t : Tx) (s : State) : State :=
  match tx_call t with
  | CreateWasteBatch cat qty seller =>
      snd (transact (createWasteBatch (tx_env t) cat qty seller) s)
  | CommitToPurchase id =>
      snd (transact (commitToPurchase (tx_env t) id) s)
  | TransferWasteBatch id =>
      snd (transact (transferWasteBatch (tx_env t) id) s)
  end.

Fixpoint run (trace : list Tx) (s : State) : State :=
  match trace with
  | [] => s
  | t :: rest => run rest (step t s)
  end.

(** The identifier a transaction assigns, when it is a creation that
    succeeds. *)
Definition created_id (t : Tx) (s : State) : option uint256 :=
  match tx_call t with
  | CreateWasteBatch cat qty seller =>
      match fst (transact (createWasteBatch (tx_env t) cat qty seller) s) with
      | Ok id => Some id
      | Err _ => None
      end
  | _ => None
  end.

(** The identifiers assigned along a trace, in order. *)
Fixpoint assigned_ids (trace : list Tx) (s : State) : list uint256 :=
  match trace with
  | [] => []
  | t :: rest =>
      match created_id t s with
      | Some id => id :: assigned_ids rest (step t s)
      | None => assigned_ids rest (step t s)
      end
  end.

(** The highest identifier of a list, 0 when nothing was assigned yet. *)
Definition highest (ids : list uint256) : uint256 :=
  fold_right Z.max 0 ids.

(** On the EVM the sender of a transaction or of a message call is an
    account, and no account has the zero address: [msg.sender] is never
    [address(0)]. *)
Definition sender_ok (env : Env) : Prop := msg_sender env <> address0.

(** States of a deployed registry: the constructor's state, and any state
    that a transaction leads to from such a state. *)
Inductive reachable : State -> Prop :=
| reach_deploy : forall env,
    sender_ok env -> reachable (constructor env)
| reach_step : forall t s,
    reachable s -> sender_ok (tx_env t) -> reachable (step t s).

(** ** The error taxonomy of the specification *)

Inductive ErrorKind : Type :=
| AuthorizationError
| InvalidStateError
| InvalidQuantityError
| InvalidAddressError
| SelfDealingError
| NotFoundError
| OtherError.

(** Which error of the specification each failure of the contract is:
    the revert reasons of the [require] statements, read against the
    failure lists of the operations (a caller who is not the administrator
    or not the owner: authorization; a batch not in the status the
    operation needs: invalid state; an unknown identifier: not found).
    The re-entrancy failure, the overflow panic and the last, defensive
    check of [transferWasteBatch] have no name there. *)
Definition error_kind (e : Error) : ErrorKind :=
  match e with
  | OwnableUnauthorizedAccount _ => AuthorizationError
  | Revert r =>
      if String.eqb r "Not batch owner" then AuthorizationError
      else if String.eqb r "Not available" then InvalidStateError
      else if String.eqb r "Buyer not committed" then InvalidStateError
      else if String.eqb r "Quantity must be > 0" then InvalidQuantityError
      else if String.eqb r "Invalid seller address" then InvalidAddressError
      else if String.eqb r "Owner cannot buy" then SelfDealingError
      else if String.eqb r "Batch does not exist" then NotFoundError
      else if String.eqb r "Batch not found" then NotFoundError
      else OtherError
  | ReentrancyGuardReentrantCall => OtherError
  | Panic _ => OtherError
  end.

(** [r] is a failure of kind [k]. *)
Definition fails_with {A} (r : Outcome A) (k : ErrorKind) : Prop :=
  exists e, r = Err e /\ error_kind e = k.

(** One step forward in the lifecycle. *)
Definition next_status (s : WasteStatus) : option WasteStatus :=
  match s with
  | CREATED => Some COMMITTED
  | COMMITTED => Some TRANSFERRED
  | TRANSFERRED => None
  end.

(** An identifier that a creation has handed out. *)
Definition allocated (s : State) (id : uint256) : Prop :=
  1 <= id < nextBatchId s.

Definition allocatedb (s : State) (id : uint256) : bool :=
  (1 <=? id) && (id <? nextBatchId s).

(** ** The states the entry points lead to *)

(** The storage that a successful [createWasteBatch] leaves. *)
Definition created_state (env : Env) (cat : string) (qty : uint256)
    (seller : address) (s : State) : State :=
  mkState (owner s) (in_flight s) (nextBatchId s + 1)
    (upd (wasteBatches s) (nextBatchId s)
       (mkWasteBatch (nextBatchId s) cat qty seller address0 CREATED
          (block_timestamp env)))
    (events s ++ [WasteBatchCreated (nextBatchId s) seller cat qty]).

(** The storage that a successful [commitToPurchase] leaves: the two field
    writes, the event, and the guard released. *)
Definition committed_state (env : Env) (id : uint256) (s : State) : State :=
  let m1 := upd (wasteBatches s) id
              (set_committedBuyer (msg_sender env) (wasteBatches s id)) in
  mkState (owner s) false (nextBatchId s)
    (upd m1 id (set_status COMMITTED (m1 id)))
    (events s ++ [PurchaseCommitted id (msg_sender env)]).

(** The storage that a successful [transferWasteBatch] leaves. *)
Definition transferred_state (id : uint256) (s : State) : State :=
  let m1 := upd (wasteBatches s) id
              (set_currentOwner (committedBuyer (wasteBatches s id))
                 (wasteBatches s id)) in
  mkState (owner s) false (nextBatchId s)
    (upd m1 id (set_status TRANSFERRED (m1 id)))
    (events s ++ [WasteBatchTransferred id (currentOwner (wasteBatches s id))
                    (committedBuyer (wasteBatches s id))]).

(** ** The transitions of the registry *)

(** What a transaction does to a state whose guard is free: nothing (the
    call reverted), or exactly one of the three transitions, each under the
    conditions its checks establish. *)
Inductive transition (t : Tx) (s : State) : State -> Prop :=
| tr_reverted :
    transition t s s
| tr_created cat qty seller :
    tx_call t = CreateWasteBatch cat qty seller ->
    msg_sender (tx_env t) = owner s ->
    0 < qty ->
    seller <> address0 ->
    nextBatchId s + 1 <= MAX_UINT256 ->
    transition t s (created_state (tx_env t) cat qty seller s)
| tr_committed id :
    tx_call t = CommitToPurchase id ->
    batchId (wasteBatches s id) <> 0 ->
    status (wasteBatches s id) = CREATED ->
    msg_sender (tx_env t) <> currentOwner (wasteBatches s id) ->
    transition t s (committed_state (tx_env t) id s)
| tr_transferred id :
    tx_call t = TransferWasteBatch id ->
    batchId (wasteBatches s id) <> 0 ->
    status (wasteBatches s id) = COMMITTED ->
    msg_sender (tx_env t) = currentOwner (wasteBatches s id) ->
    committedBuyer (wasteBatches s id) <> address0 ->
    transition t s (transferred_state id s).

(** ** The invariant of the storage *)

Record Inv (s : State) : Prop := mkInv {
  inv_guard : in_flight s = false;
  inv_next_lo : 1 <= nextBatchId s;
  inv_next_hi : nextBatchId s <= MAX_UINT256;
  inv_alloc : forall id, allocated s id ->
    batchId (wasteBatches s id) = id /\
    currentOwner (wasteBatches s id) <> address0 /\
    (committedBuyer (wasteBatches s id) <> address0 <->
     status (wasteBatches s id) <> CREATED);
  inv_free : forall id, ~ allocated s id -> wasteBatches s id = zero_batch
}.

(** A piece of code that leaves the guard as it found it. *)
Definition keeps_guard {A} (m : M A) : Prop :=
  forall s, in_flight (snd (m s)) = in_flight s.

(** ** A sample deployment: an administrator, a seller and a buyer *)

Definition admin : Env := mkEnv 1 1000.
Definition seller_env : Env := mkEnv 2 1001.
Definition buyer_env : Env := mkEnv 3 1002.

Definition fly_ash : string := "fly_ash".

Definition genesis : State := constructor admin.

(** One batch created for the seller. *)
Definition listed : State :=
  step (mkTx admin (CreateWasteBatch fly_ash 100 (msg_sender seller_env)))
       genesis.

(** ... the buyer has committed to it ... *)
Definition pledged : State :=
  step (mkTx buyer_env (CommitToPurchase 1)) listed.

(** ... and the seller has handed it over. *)
Definition handed_over : State :=
  step (mkTx seller_env (TransferWasteBatch 1)) pledged.

(** The same batch, had a commitment arrived from the zero address. *)
Definition pledged_by_nobody : State :=
  step (mkTx (mkEnv address0 1002) (CommitToPurchase 1)) listed.

(** The scenario as a trace. *)
Definition sample_trace : list Tx :=
  [ mkTx admin (CreateWasteBatch fly_ash 100 (msg_sender seller_env));
    mkTx buyer_env (CommitToPurchase 1);
    mkTx seller_env (TransferWasteBatch 1) ].

(** ** The rest of the contract's interface *)


(** The getter that [public] generates for [wasteBatches]: the members of
    the stored record, without the existence check of [getWasteBatch]. *)
Definition wasteBatches_getter (id : uint256) : M WasteBatch :=
  sload id (fun b => b).

(** ** The ledger: storage and log together *)

(** What the storage and the event log of the registry say about each
    other, and about the two parties of a batch. *)
Record Ledger (s : State) : Prop := mkLedger {
  led_inv : Inv s;
  led_parties : forall id,
    (status (wasteBatches s id) = COMMITTED ->
     committedBuyer (wasteBatches s id) <> currentOwner (wasteBatches s id)) /\
    (status (wasteBatches s id) = TRANSFERRED ->
     committedBuyer (wasteBatches s id) = currentOwner (wasteBatches s id));
  led_created : forall id seller cat qty,
    In (WasteBatchCreated id seller cat qty) (events s) ->
    allocated s id /\
    category (wasteBatches s id) = cat /\
    quantity (wasteBatches s id) = qty /\
    (status (wasteBatches s id) <> TRANSFERRED ->
     currentOwner (wasteBatches s id) = seller);
  led_created_all : forall id,
    allocated s id ->
    exists seller,
      In (WasteBatchCreated id seller (category (wasteBatches s id))
            (quantity (wasteBatches s id))) (events s);
  led_committed : forall id buyer,
    In (PurchaseCommitted id buyer) (events s) ->
    status (wasteBatches s id) <> CREATED /\
    committedBuyer (wasteBatches s id) = buyer;
  led_committed_all : forall id,
    status (wasteBatches s id) <> CREATED ->
    In (PurchaseCommitted id (committedBuyer (wasteBatches s id))) (events s);
  led_transferred : forall id from to,
    In (WasteBatchTransferred id from to) (events s) ->
    status (wasteBatches s id) = TRANSFERRED /\
    currentOwner (wasteBatches s id) = to /\
    (forall seller cat qty,
       In (WasteBatchCreated id seller cat qty) (events s) -> seller = from);
  led_transferred_all : forall id,
    status (wasteBatches s id) = TRANSFERRED ->
    exists from,
      In (WasteBatchTransferred id from (currentOwner (wasteBatches s id)))
         (events s);
  led_nodup : NoDup (events s)
}.

(** ** The scripts that drive the contract *)

(** [blockchain/deploy.js]: the first signer deploys the contract. *)
Definition deploy_main (deployer : Env) : State := constructor deployer.

(** The interaction script: the administrator creates a batch of 100
    [fly_ash] for the seller, the buyer commits to batch 1, the seller
    transfers batch 1, and the current owner of batch 1 is read back.  Each
    call is a transaction of its own, sent by the signer the contract
    object is connected to; a transaction that reverts makes the script
    throw there, with the earlier transactions already mined. *)
Definition interact_main (admin seller buyer : address)
    (t1 t2 t3 : uint256) : M address :=
  transact (createWasteBatch (mkEnv admin t1) "fly_ash" 100 seller) ;;
  transact (commitToPurchase (mkEnv buyer t2) 1) ;;
  transact (transferWasteBatch (mkEnv seller t3) 1) ;;
  batch <- transact (getWasteBatch 1) ;;
  ret (currentOwner batch).

(** ** The search of the marketplace front end *)

(** [interface MarketplaceItem]: every member is a string. *)
Record MarketplaceItem : Type := mkItem {
  item_id : string;
  title : string;
  item_category : string;
  item_quantity : string;
  location : string;
  price : string;
  image : string
}.

(** [String.prototype.includes]: [sub] occurs somewhere in [s]. *)
Fixpoint includes (s sub : string) : bool :=
  if String.prefix sub s then true
  else match s with
       | EmptyString => false
       | String _ rest => includes rest sub
       end.

(** [!searchQuery] on a string: only the empty string is falsy. *)
Definition falsy (s : string) : bool :=
  match s with
  | EmptyString => true
  | String _ _ => false
  end.

(** [filteredItems] of the [Marketplace] component.  The list
    [DUMMY_ITEMS] comes from a module that is not among the sources, and
    [toLowerCase] is the built-in of the language: both are parameters. *)
Definition filteredItems (toLowerCase : string -> string)
    (DUMMY_ITEMS : list MarketplaceItem) (searchQuery : string)
  : list MarketplaceItem :=
  if falsy searchQuery then DUMMY_ITEMS
  else filter (fun item =>
         includes (toLowerCase (title item)) (toLowerCase searchQuery) ||
         includes (toLowerCase (item_category item)) (toLowerCase searchQuery) ||
         includes (toLowerCase (location item)) (toLowerCase searchQuery))
       DUMMY_ITEMS.

(** [suggestions] of the [App] component: at most eight items, matched on
    title and category only. *)
Definition suggestions (toLowerCase : string -> string)
    (DUMMY_ITEMS : list MarketplaceItem) (searchQuery : string)
  : list MarketplaceItem :=
  if falsy searchQuery then []
  else firstn 8
         (filter (fun item =>
            includes (toLowerCase (title item)) (toLowerCase searchQuery) ||
            includes (toLowerCase (item_category item))
                     (toLowerCase searchQuery))
          DUMMY_ITEMS).

(** The identifiers that the creation events of a log carry, in the order
    of the log: what somebody who follows the events sees being created. *)
Fixpoint created_in_log (l : list Event) : list uint256 :=
  match l with
  | [] => []
  | WasteBatchCreated id _ _ _ :: rest => id :: created_in_log rest
  | _ :: rest => created_in_log rest
  end.

(** The identifiers 1, 2, ..., n - 1. *)
Definition ids_below (n : uint256) : list uint256 :=
  map Z.of_nat (seq 1 (Z.to_nat (n - 1))).

(** A small inventory to try the search on. *)
Definition sample_items : list MarketplaceItem :=
  [ mkItem "1" "copper wire" "metal" "2 t" "pune" "$10" "a.png";
    mkItem "2" "pet flakes" "plastic" "5 t" "copperhill" "$20" "b.png" ].

Create HintDb guard.

(** ** How each entry point runs *)

Lemma upd_same m k v : upd m k v k = v.
Proof. unfold upd. now rewrite Z.eqb_refl. Qed.

Lemma upd_other m k v k' : k' <> k -> upd m k v k' = m k'.
Proof. unfold upd. intros H. apply Z.eqb_neq in H. now rewrite H. Qed.

Lemma WasteStatus_eqb_spec a b : reflect (a = b) (WasteStatus_eqb a b).
Proof. destruct a, b; simpl; constructor; congruence. Qed.

Lemma MAX_UINT256_pos : 1 < MAX_UINT256.
Proof. reflexivity. Qed.

Ltac run_monad :=
  unfold transact, nonReentrant, bind, ret, require, revert, sload, sstore,
    emit, read_nextBatchId, incr_nextBatchId, onlyOwner,
    nonReentrantBefore, nonReentrantAfter; simpl.

(** The code as it runs, with the storage it leaves at a failure. *)
Lemma createWasteBatch_raw env cat qty seller s :
  createWasteBatch env cat qty seller s =
  if negb (msg_sender env =? owner s)
  then (Err (OwnableUnauthorizedAccount (msg_sender env)), s)
  else if negb (qty >? 0)
  then (Err (Revert "Quantity must be > 0"), s)
  else if seller =? address0
  then (Err (Revert "Invalid seller address"), s)
  else if negb (nextBatchId s + 1 <=? MAX_UINT256)
  then (Err (Panic 17),
        with_wasteBatches
          (upd (wasteBatches s) (nextBatchId s)
             (mkWasteBatch (nextBatchId s) cat qty seller address0 CREATED
                (block_timestamp env))) s)
  else (Ok (nextBatchId s), created_state env cat qty seller s).
Proof.
  unfold createWasteBatch. run_monad.
  destruct (msg_sender env =? owner s); simpl; [|reflexivity].
  destruct (qty >? 0); simpl; [|reflexivity].
  destruct (seller =? address0); simpl; [reflexivity|].
  destruct (nextBatchId s + 1 <=? MAX_UINT256); reflexivity.
Qed.

(** The same as a transaction. *)
Lemma createWasteBatch_run env cat qty seller s :
  transact (createWasteBatch env cat qty seller) s =
  if negb (msg_sender env =? owner s)
  then (Err (OwnableUnauthorizedAccount (msg_sender env)), s)
  else if negb (qty >? 0)
  then (Err (Revert "Quantity must be > 0"), s)
  else if seller =? address0
  then (Err (Revert "Invalid seller address"), s)
  else if negb (nextBatchId s + 1 <=? MAX_UINT256)
  then (Err (Panic 17), s)
  else (Ok (nextBatchId s), created_state env cat qty seller s).
Proof.
  unfold transact. rewrite createWasteBatch_raw.
  destruct (msg_sender env =? owner s); simpl; [|reflexivity].
  destruct (qty >? 0); simpl; [|reflexivity].
  destruct (seller =? address0); simpl; [reflexivity|].
  destruct (nextBatchId s + 1 <=? MAX_UINT256); reflexivity.
Qed.

Lemma commitToPurchase_raw env id s :
  commitToPurchase env id s =
  if in_flight s
  then (Err ReentrancyGuardReentrantCall, s)
  else if batchId (wasteBatches s id) =? 0
  then (Err (Revert "Batch does not exist"), with_in_flight true s)
  else if negb (WasteStatus_eqb (status (wasteBatches s id)) CREATED)
  then (Err (Revert "Not available"), with_in_flight true s)
  else if msg_sender env =? currentOwner (wasteBatches s id)
  then (Err (Revert "Owner cannot buy"), with_in_flight true s)
  else (Ok tt, committed_state env id s).
Proof.
  unfold commitToPurchase, commitToPurchase_body. run_monad.
  destruct (in_flight s); simpl; [reflexivity|].
  destruct (batchId (wasteBatches s id) =? 0); simpl; [reflexivity|].
  destruct (WasteStatus_eqb (status (wasteBatches s id)) CREATED); simpl;
    [|reflexivity].
  destruct (msg_sender env =? currentOwner (wasteBatches s id)); reflexivity.
Qed.

Lemma commitToPurchase_run env id s :
  in_flight s = false ->
  transact (commitToPurchase env id) s =
  if batchId (wasteBatches s id) =? 0
  then (Err (Revert "Batch does not exist"), s)
  else if negb (WasteStatus_eqb (status (wasteBatches s id)) CREATED)
  then (Err (Revert "Not available"), s)
  else if msg_sender env =? currentOwner (wasteBatches s id)
  then (Err (Revert "Owner cannot buy"), s)
  else (Ok tt, committed_state env id s).
Proof.
  intros H. unfold transact. rewrite commitToPurchase_raw, H.
  destruct (batchId (wasteBatches s id) =? 0); simpl; [reflexivity|].
  destruct (WasteStatus_eqb (status (wasteBatches s id)) CREATED); simpl;
    [|reflexivity].
  destruct (msg_sender env =? currentOwner (wasteBatches s id)); reflexivity.
Qed.

Lemma transferWasteBatch_raw env id s :
  transferWasteBatch env id s =
  if in_flight s
  then (Err ReentrancyGuardReentrantCall, s)
  else if batchId (wasteBatches s id) =? 0
  then (Err (Revert "Batch does not exist"), with_in_flight true s)
  else if negb (WasteStatus_eqb (status (wasteBatches s id)) COMMITTED)
  then (Err (Revert "Buyer not committed"), with_in_flight true s)
  else if negb (msg_sender env =? currentOwner (wasteBatches s id))
  then (Err (Revert "Not batch owner"), with_in_flight true s)
  else if committedBuyer (wasteBatches s id) =? address0
  then (Err (Revert "No buyer committed"), with_in_flight true s)
  else (Ok tt, transferred_state id s).
Proof.
  unfold transferWasteBatch, transferWasteBatch_body. run_monad.
  destruct (in_flight s); simpl; [reflexivity|].
  destruct (batchId (wasteBatches s id) =? 0); simpl; [reflexivity|].
  destruct (WasteStatus_eqb (status (wasteBatches s id)) COMMITTED); simpl;
    [|reflexivity].
  destruct (msg_sender env =? currentOwner (wasteBatches s id)); simpl;
    [|reflexivity].
  destruct (committedBuyer (wasteBatches s id) =? address0); reflexivity.
Qed.

Lemma transferWasteBatch_run env id s :
  in_flight s = false ->
  transact (transferWasteBatch env id) s =
  if batchId (wasteBatches s id) =? 0
  then (Err (Revert "Batch does not exist"), s)
  else if negb (WasteStatus_eqb (status (wasteBatches s id)) COMMITTED)
  then (Err (Revert "Buyer not committed"), s)
  else if negb (msg_sender env =? currentOwner (wasteBatches s id))
  then (Err (Revert "Not batch owner"), s)
  else if committedBuyer (wasteBatches s id) =? address0
  then (Err (Revert "No buyer committed"), s)
  else (Ok tt, transferred_state id s).
Proof.
  intros H. unfold transact. rewrite transferWasteBatch_raw, H.
  destruct (batchId (wasteBatches s id) =? 0); simpl; [reflexivity|].
  destruct (WasteStatus_eqb (status (wasteBatches s id)) COMMITTED); simpl;
    [|reflexivity].
  destruct (msg_sender env =? currentOwner (wasteBatches s id)); simpl;
    [|reflexivity].
  destruct (committedBuyer (wasteBatches s id) =? address0); reflexivity.
Qed.

(** A guarded entry point entered while the guard is held. *)
Lemma nonReentrant_held {A} (body : M A) s :
  in_flight s = true ->
  nonReentrant body s = (Err ReentrancyGuardReentrantCall, s).
Proof. intros H. run_monad. now rewrite H. Qed.

Lemma getWasteBatch_run id s :
  getWasteBatch id s =
  if batchId (wasteBatches s id) =? 0
  then (Err (Revert "Batch not found"), s)
  else (Ok (wasteBatches s id), s).
Proof.
  unfold getWasteBatch. run_monad.
  destruct (batchId (wasteBatches s id) =? 0); reflexivity.
Qed.

(** Reading the mapping after each of the three writes. *)
Lemma created_state_lookup env cat qty seller s k :
  wasteBatches (created_state env cat qty seller s) k =
  if k =? nextBatchId s
  then mkWasteBatch (nextBatchId s) cat qty seller address0 CREATED
         (block_timestamp env)
  else wasteBatches s k.
Proof. reflexivity. Qed.

Lemma committed_state_lookup env id s k :
  wasteBatches (committed_state env id s) k =
  if k =? id
  then set_status COMMITTED
         (set_committedBuyer (msg_sender env) (wasteBatches s id))
  else wasteBatches s k.
Proof.
  unfold committed_state; simpl. unfold upd at 1.
  destruct (Z.eqb_spec k id) as [->|Hk].
  - now rewrite upd_same.
  - now rewrite upd_other.
Qed.

Lemma transferred_state_lookup id s k :
  wasteBatches (transferred_state id s) k =
  if k =? id
  then set_status TRANSFERRED
         (set_currentOwner (committedBuyer (wasteBatches s id))
            (wasteBatches s id))
  else wasteBatches s k.
Proof.
  unfold transferred_state; simpl. unfold upd at 1.
  destruct (Z.eqb_spec k id) as [->|Hk].
  - now rewrite upd_same.
  - now rewrite upd_other.
Qed.

(** ** One transaction, case by case *)

Lemma step_transition t s :
  in_flight s = false -> transition t s (step t s).
Proof.
  intros Hg. unfold step. destruct (tx_call t) as [cat qty seller|id|id] eqn:Hc.
  - rewrite createWasteBatch_run.
    destruct (Z.eqb_spec (msg_sender (tx_env t)) (owner s)); simpl;
      [|constructor].
    destruct (Z.gtb_spec qty 0); simpl; [|constructor].
    destruct (Z.eqb_spec seller address0); simpl; [constructor|].
    destruct (Z.leb_spec (nextBatchId s + 1) MAX_UINT256); simpl;
      [|constructor].
    now apply tr_created.
  - rewrite commitToPurchase_run by assumption.
    destruct (Z.eqb_spec (batchId (wasteBatches s id)) 0); simpl;
      [constructor|].
    destruct (WasteStatus_eqb_spec (status (wasteBatches s id)) CREATED);
      simpl; [|constructor].
    destruct (Z.eqb_spec (msg_sender (tx_env t))
                (currentOwner (wasteBatches s id))); simpl; [constructor|].
    now apply tr_committed.
  - rewrite transferWasteBatch_run by assumption.
    destruct (Z.eqb_spec (batchId (wasteBatches s id)) 0); simpl;
      [constructor|].
    destruct (WasteStatus_eqb_spec (status (wasteBatches s id)) COMMITTED);
      simpl; [|constructor].
    destruct (Z.eqb_spec (msg_sender (tx_env t))
                (currentOwner (wasteBatches s id))); simpl; [|constructor].
    destruct (Z.eqb_spec (committedBuyer (wasteBatches s id)) address0);
      simpl; [constructor|].
    now apply tr_transferred.
Qed.

(** ** The storage invariant *)

Lemma Inv_constructor env : Inv (constructor env).
Proof.
  constructor; simpl; try reflexivity; try lia.
  - pose proof MAX_UINT256_pos. lia.
  - unfold allocated; simpl. lia.
Qed.

(** An existing record (stored [batchId] non-zero) is an allocated one. *)
Lemma Inv_exists_allocated s id :
  Inv s -> batchId (wasteBatches s id) <> 0 -> allocated s id.
Proof.
  intros HI Hne.
  destruct (Z_le_dec 1 id) as [H1|H1];
    [destruct (Z_lt_dec id (nextBatchId s)) as [H2|H2]|].
  - split; assumption.
  - exfalso. apply Hne. rewrite (inv_free s HI id); [reflexivity|].
    unfold allocated. lia.
  - exfalso. apply Hne. rewrite (inv_free s HI id); [reflexivity|].
    unfold allocated. lia.
Qed.

Lemma Inv_transition t s s' :
  Inv s -> sender_ok (tx_env t) -> transition t s s' -> Inv s'.
Proof.
  intros HI Hs Htr.
  destruct Htr as [|cat qty seller Hc Ho Hq Hsel Hhi
                   |id Hc Hid Hst Hown|id Hc Hid Hst Hown Hb].
  - assumption.
  - pose proof (inv_next_lo s HI) as Hlo.
    constructor; simpl.
    + apply (inv_guard s HI).
    + lia.
    + assumption.
    + intros k Hk. unfold allocated in Hk; simpl in Hk.
      unfold upd. destruct (Z.eqb_spec k (nextBatchId s)) as [->|Hne]; simpl.
      * repeat split; try assumption; intros H; exfalso; now apply H.
      * apply (inv_alloc s HI k). unfold allocated. lia.
    + intros k Hk. unfold allocated in Hk; simpl in Hk.
      unfold upd. destruct (Z.eqb_spec k (nextBatchId s)) as [->|Hne]; simpl.
      * exfalso. apply Hk. lia.
      * apply (inv_free s HI k). unfold allocated. lia.
  - pose proof (Inv_exists_allocated s id HI Hid) as Ha.
    destruct (inv_alloc s HI id Ha) as (Hb1 & Hb2 & Hb3).
    constructor;
      [reflexivity|apply (inv_next_lo s HI)|apply (inv_next_hi s HI)| |].
    + intros k Hk. rewrite committed_state_lookup.
      destruct (Z.eqb_spec k id) as [->|Hne]; simpl.
      * repeat split; try assumption; intros _; [discriminate|apply Hs].
      * apply (inv_alloc s HI k Hk).
    + intros k Hk. rewrite committed_state_lookup.
      destruct (Z.eqb_spec k id) as [->|Hne]; simpl.
      * exfalso. apply Hk, Ha.
      * apply (inv_free s HI k Hk).
  - pose proof (Inv_exists_allocated s id HI Hid) as Ha.
    destruct (inv_alloc s HI id Ha) as (Hb1 & Hb2 & Hb3).
    constructor;
      [reflexivity|apply (inv_next_lo s HI)|apply (inv_next_hi s HI)| |].
    + intros k Hk. rewrite transferred_state_lookup.
      destruct (Z.eqb_spec k id) as [->|Hne]; simpl.
      * repeat split; try assumption; intros _; [discriminate|assumption].
      * apply (inv_alloc s HI k Hk).
    + intros k Hk. rewrite transferred_state_lookup.
      destruct (Z.eqb_spec k id) as [->|Hne]; simpl.
      * exfalso. apply Hk, Ha.
      * apply (inv_free s HI k Hk).
Qed.

Lemma reachable_Inv s : reachable s -> Inv s.
Proof.
  induction 1 as [env Hs|t s Hr IH Hs].
  - apply Inv_constructor.
  - apply (Inv_transition t s); try assumption.
    apply step_transition, (inv_guard s IH).
Qed.

Lemma reachable_run trace : forall s,
  reachable s ->
  Forall (fun t => sender_ok (tx_env t)) trace ->
  reachable (run trace s).
Proof.
  induction trace as [|t rest IH]; intros s Hr Hall; simpl.
  - assumption.
  - inversion Hall as [|? ? Ht Hrest]; subst.
    apply IH; [|assumption]. now apply reach_step.
Qed.

(** Consequences of the invariant, in the form the proofs below use. *)
Lemma Inv_batchId s id :
  Inv s -> batchId (wasteBatches s id) = if allocatedb s id then id else 0.
Proof.
  intros HI. unfold allocatedb.
  destruct (Z.leb_spec 1 id) as [H1|H1]; simpl;
    [destruct (Z.ltb_spec id (nextBatchId s)) as [H2|H2]|].
  - apply (inv_alloc s HI id). split; assumption.
  - rewrite (inv_free s HI id); [reflexivity|]. unfold allocated. lia.
  - rewrite (inv_free s HI id); [reflexivity|]. unfold allocated. lia.
Qed.

Lemma Inv_exists_iff s id :
  Inv s -> batchId (wasteBatches s id) <> 0 <-> allocated s id.
Proof.
  intros HI. split.
  - apply Inv_exists_allocated, HI.
  - intros Ha. destruct (inv_alloc s HI id Ha) as (Hb & _).
    rewrite Hb. unfold allocated in Ha. lia.
Qed.

Lemma Inv_buyer_iff s id :
  Inv s ->
  committedBuyer (wasteBatches s id) <> address0 <->
  status (wasteBatches s id) = COMMITTED \/
  status (wasteBatches s id) = TRANSFERRED.
Proof.
  intros HI.
  assert (Hd : allocated s id \/ ~ allocated s id).
  { unfold allocated. lia. }
  destruct Hd as [Ha|Hf].
  - destruct (inv_alloc s HI id Ha) as (_ & _ & Hiff).
    rewrite Hiff. destruct (status (wasteBatches s id)); split;
      try (intros [H|H]; discriminate); try discriminate; auto.
    intros H; now contradiction H.
  - rewrite (inv_free s HI id Hf); simpl. split.
    + intros H; now contradiction H.
    + intros [H|H]; discriminate.
Qed.

Lemma reachable_genesis : reachable genesis.
Proof. apply reach_deploy. discriminate. Defined.

Lemma reachable_listed : reachable listed.
Proof. apply reach_step; [apply reachable_genesis|discriminate]. Defined.

Lemma reachable_pledged : reachable pledged.
Proof. apply reach_step; [apply reachable_listed|discriminate]. Defined.

Lemma reachable_handed_over : reachable handed_over.
Proof. apply reach_step; [apply reachable_pledged|discriminate]. Defined.

(** ** Properties of the registry *)

(** C10. In every reachable state the next-id counter is at least 1, and
    the record stored at an identifier carries that identifier in its
    [batchId] field when the identifier has been allocated
    (1 <= id < nextBatchId) and 0 otherwise.  Hence the existence test
    [batchId != 0] decides allocation, and the not-found failure of
    [commitToPurchase], [transferWasteBatch] and [getWasteBatch] is taken
    exactly on the identifiers that were never allocated. *)
Theorem storage_invariant (s : State) :
  reachable s ->
  1 <= nextBatchId s /\
  (forall id,
     batchId (wasteBatches s id) = if allocatedb s id then id else 0) /\
  (forall id, batchId (wasteBatches s id) <> 0 <-> allocated s id) /\
  (forall env id,
     fst (transact (commitToPurchase env id) s)
       = Err (Revert "Batch does not exist") <-> ~ allocated s id) /\
  (forall env id,
     fst (transact (transferWasteBatch env id) s)
       = Err (Revert "Batch does not exist") <-> ~ allocated s id) /\
  (forall id,
     fst (getWasteBatch id s)
       = Err (Revert "Batch not found") <-> ~ allocated s id).
Proof.
  intros Hr. pose proof (reachable_Inv s Hr) as HI.
  split; [apply (inv_next_lo s HI)|].
  split; [intros id; apply Inv_batchId, HI|].
  split; [intros id; apply Inv_exists_iff, HI|].
  assert (Hz : forall id,
             (batchId (wasteBatches s id) =? 0) = true <-> ~ allocated s id).
  { intros id. rewrite Z.eqb_eq, <- (Inv_exists_iff s id HI).
    destruct (Z.eq_dec (batchId (wasteBatches s id)) 0); split; intros;
      try assumption; try contradiction. tauto. }
  split; [|split].
  - intros env id. rewrite commitToPurchase_run by apply (inv_guard s HI).
    rewrite <- Hz.
    destruct (batchId (wasteBatches s id) =? 0); simpl; [tauto|].
    destruct (negb _); simpl; [split; discriminate|].
    destruct (_ =? _); simpl; split; discriminate.
  - intros env id. rewrite transferWasteBatch_run by apply (inv_guard s HI).
    rewrite <- Hz.
    destruct (batchId (wasteBatches s id) =? 0); simpl; [tauto|].
    destruct (negb _); simpl; [split; discriminate|].
    destruct (negb _); simpl; [split; discriminate|].
    destruct (_ =? _); simpl; split; discriminate.
  - intros id. rewrite getWasteBatch_run. rewrite <- Hz.
    destruct (batchId (wasteBatches s id) =? 0); simpl; [tauto|].
    split; discriminate.
Qed.

Lemma storage_invariant_witness :
  reachable listed /\
  1 <= nextBatchId listed /\
  batchId (wasteBatches listed 1) = 1 /\
  batchId (wasteBatches listed 2) = 0.
Proof.
  split; [apply reachable_listed|].
  destruct (storage_invariant listed reachable_listed) as (H1 & H2 & _).
  split; [exact H1|].
  split; [exact (H2 1)|exact (H2 2)].
Defined.

Lemma transact_fst {A} (m : M A) s : fst (transact m s) = fst (m s).
Proof. unfold transact. destruct (m s) as [[a|e] s']; reflexivity. Qed.

(** A transaction never moves the status of a batch other than one step
    forward. *)
Lemma status_forward s t id :
  Inv s ->
  status (wasteBatches (step t s) id) = status (wasteBatches s id) \/
  next_status (status (wasteBatches s id))
    = Some (status (wasteBatches (step t s) id)).
Proof.
  intros HI.
  destruct (step_transition t s (inv_guard s HI))
    as [|cat qty seller Hc Ho Hq Hsel Hhi
        |id0 Hc Hid Hst Hown|id0 Hc Hid Hst Hown Hb].
  - now left.
  - left. rewrite created_state_lookup.
    destruct (Z.eqb_spec id (nextBatchId s)) as [->|Hne]; [|reflexivity].
    rewrite (inv_free s HI (nextBatchId s)); [reflexivity|].
    unfold allocated. lia.
  - rewrite committed_state_lookup.
    destruct (Z.eqb_spec id id0) as [->|Hne]; [|now left].
    right. rewrite Hst. reflexivity.
  - rewrite transferred_state_lookup.
    destruct (Z.eqb_spec id id0) as [->|Hne]; [|now left].
    right. rewrite Hst. reflexivity.
Qed.

(** C1. In every state reachable from the constructor's state by
    [createWasteBatch], [commitToPurchase] and [transferWasteBatch]
    transactions (sent, as on the EVM, from non-zero addresses), every
    stored batch has a non-zero [committedBuyer] if and
    only if its status is COMMITTED or TRANSFERRED; one transaction leaves
    the status of a batch where it is or moves it one step forward along
    CREATED, COMMITTED, TRANSFERRED; and so the check
    [require(buyer != address(0), "No buyer committed")] of
    [transferWasteBatch] is never the one that fails. *)
Theorem lifecycle_invariant (s : State) :
  reachable s ->
  (forall id,
     committedBuyer (wasteBatches s id) <> address0 <->
     status (wasteBatches s id) = COMMITTED \/
     status (wasteBatches s id) = TRANSFERRED) /\
  (forall t id,
     status (wasteBatches (step t s) id) = status (wasteBatches s id) \/
     next_status (status (wasteBatches s id))
       = Some (status (wasteBatches (step t s) id))) /\
  (forall env id,
     fst (transferWasteBatch env id s) <> Err (Revert "No buyer committed") /\
     fst (transact (transferWasteBatch env id) s)
       <> Err (Revert "No buyer committed")).
Proof.
  intros Hr. pose proof (reachable_Inv s Hr) as HI.
  split; [intros id; apply Inv_buyer_iff, HI|].
  split; [intros t id; apply status_forward, HI|].
  intros env id. rewrite <- transact_fst.
  assert (H : fst (transact (transferWasteBatch env id) s)
              <> Err (Revert "No buyer committed")); [|now split].
  rewrite transferWasteBatch_run by apply (inv_guard s HI).
  destruct (batchId (wasteBatches s id) =? 0); simpl; [discriminate|].
  destruct (WasteStatus_eqb_spec (status (wasteBatches s id)) COMMITTED)
    as [Hst|Hst]; simpl; [|discriminate].
  destruct (negb _); simpl; [discriminate|].
  destruct (Z.eqb_spec (committedBuyer (wasteBatches s id)) address0)
    as [Hb|Hb]; simpl; [|discriminate].
  exfalso. revert Hb. apply (Inv_buyer_iff s id HI). now left.
Qed.

Lemma lifecycle_invariant_witness :
  reachable pledged /\
  (committedBuyer (wasteBatches pledged 1) <> address0 <->
   status (wasteBatches pledged 1) = COMMITTED \/
   status (wasteBatches pledged 1) = TRANSFERRED) /\
  next_status (status (wasteBatches pledged 1))
    = Some (status (wasteBatches handed_over 1)) /\
  fst (transact (transferWasteBatch seller_env 1) pledged) = Ok tt.
Proof.
  split; [apply reachable_pledged|].
  destruct (lifecycle_invariant pledged reachable_pledged) as (H1 & H2 & H3).
  split; [exact (H1 1)|].
  split; reflexivity.
Defined.

(** The premise on senders carries the first part of the invariant: the
    contract never compares [msg.sender] with [address(0)], and a
    commitment arriving from the zero address would leave a COMMITTED
    batch without a buyer, which only the last check of
    [transferWasteBatch] would then catch. *)
Remark commit_from_address0 :
  status (wasteBatches pledged_by_nobody 1) = COMMITTED /\
  committedBuyer (wasteBatches pledged_by_nobody 1) = address0 /\
  transact (transferWasteBatch seller_env 1) pledged_by_nobody
    = (Err (Revert "No buyer committed"), pledged_by_nobody).
Proof. repeat split. Qed.

(** C8. In every reachable state [getWasteBatch(0)] fails with the
    not-found error, however many batches exist; and [getWasteBatch]
    leaves the storage as it found it, for every argument and in every
    state. *)
Theorem getWasteBatch_zero (s : State) (id : uint256) :
  (reachable s ->
   exists e, getWasteBatch 0 s = (Err e, s) /\ error_kind e = NotFoundError) /\
  snd (getWasteBatch id s) = s /\
  snd (transact (getWasteBatch id) s) = s.
Proof.
  split; [|split].
  - intros Hr. pose proof (reachable_Inv s Hr) as HI.
    exists (Revert "Batch not found"). split; [|reflexivity].
    rewrite getWasteBatch_run, (inv_free s HI 0); [reflexivity|].
    unfold allocated. lia.
  - rewrite getWasteBatch_run. now destruct (_ =? _).
  - unfold transact. rewrite getWasteBatch_run. now destruct (_ =? _).
Qed.

Lemma getWasteBatch_zero_witness :
  reachable handed_over /\
  (exists e, getWasteBatch 0 handed_over = (Err e, handed_over) /\
             error_kind e = NotFoundError) /\
  snd (getWasteBatch 1 handed_over) = handed_over.
Proof.
  split; [apply reachable_handed_over|].
  destruct (getWasteBatch_zero handed_over 1) as (H1 & H2 & _).
  split; [exact (H1 reachable_handed_over)|exact H2].
Defined.

(** ** Commitment *)

(** C3. On an existing batch in status CREATED whose owner is not the
    caller B, [commitToPurchase] by B succeeds; afterwards [getWasteBatch]
    shows status COMMITTED and committed buyer B; and from that state a
    second [commitToPurchase] on the same batch, by any caller, fails with
    the invalid-state error and leaves the committed buyer equal to B.
    (Stated for every state whose guard is free, as every reachable state
    is.) *)
Theorem commit_once (s : State) (env : Env) (id : uint256) :
  in_flight s = false ->
  batchId (wasteBatches s id) <> 0 ->
  status (wasteBatches s id) = CREATED ->
  currentOwner (wasteBatches s id) <> msg_sender env ->
  exists s',
    transact (commitToPurchase env id) s = (Ok tt, s') /\
    (exists b, getWasteBatch id s' = (Ok b, s') /\
               status b = COMMITTED /\ committedBuyer b = msg_sender env) /\
    (forall env2,
       exists e,
         transact (commitToPurchase env2 id) s' = (Err e, s') /\
         error_kind e = InvalidStateError /\
         committedBuyer
           (wasteBatches (snd (transact (commitToPurchase env2 id) s')) id)
         = msg_sender env).
Proof.
  intros Hg Hid Hst Hown. exists (committed_state env id s).
  assert (Hb : wasteBatches (committed_state env id s) id =
               set_status COMMITTED
                 (set_committedBuyer (msg_sender env) (wasteBatches s id))).
  { rewrite committed_state_lookup. now rewrite Z.eqb_refl. }
  split; [|split].
  - rewrite commitToPurchase_run by assumption.
    apply Z.eqb_neq in Hid. rewrite Hid, Hst. simpl.
    assert (Hne : (msg_sender env =? currentOwner (wasteBatches s id)) = false).
    { apply Z.eqb_neq. congruence. }
    now rewrite Hne.
  - exists (wasteBatches (committed_state env id s) id).
    rewrite getWasteBatch_run, Hb. simpl.
    apply Z.eqb_neq in Hid. rewrite Hid. repeat split.
  - intros env2. exists (Revert "Not available").
    assert (Hrun : transact (commitToPurchase env2 id) (committed_state env id s)
                   = (Err (Revert "Not available"), committed_state env id s)).
    { rewrite commitToPurchase_run by reflexivity. rewrite Hb. simpl.
      apply Z.eqb_neq in Hid. now rewrite Hid. }
    rewrite Hrun. cbn [snd]. rewrite Hb. repeat split.
Qed.

Lemma commit_once_witness :
  in_flight listed = false /\
  batchId (wasteBatches listed 1) <> 0 /\
  status (wasteBatches listed 1) = CREATED /\
  currentOwner (wasteBatches listed 1) <> msg_sender buyer_env /\
  exists s',
    transact (commitToPurchase buyer_env 1) listed = (Ok tt, s') /\
    (exists b, getWasteBatch 1 s' = (Ok b, s') /\
               status b = COMMITTED /\ committedBuyer b = 3) /\
    (forall env2,
       exists e,
         transact (commitToPurchase env2 1) s' = (Err e, s') /\
         error_kind e = InvalidStateError /\
         committedBuyer
           (wasteBatches (snd (transact (commitToPurchase env2 1) s')) 1)
         = 3).
Proof.
  assert (H1 : in_flight listed = false) by reflexivity.
  assert (H2 : batchId (wasteBatches listed 1) <> 0) by discriminate.
  assert (H3 : status (wasteBatches listed 1) = CREATED) by reflexivity.
  assert (H4 : currentOwner (wasteBatches listed 1) <> msg_sender buyer_env)
    by discriminate.
  repeat (split; [assumption|]).
  exact (commit_once listed buyer_env 1 H1 H2 H3 H4).
Defined.

(** ** Transfer *)

Lemma transferred_stable s t id :
  Inv s ->
  status (wasteBatches s id) = TRANSFERRED ->
  status (wasteBatches (step t s) id) = TRANSFERRED.
Proof.
  intros HI Hst. destruct (status_forward s t id HI) as [H|H].
  - congruence.
  - rewrite Hst in H. discriminate.
Qed.

Lemma transferred_forever trace : forall s id,
  reachable s ->
  Forall (fun t => sender_ok (tx_env t)) trace ->
  status (wasteBatches s id) = TRANSFERRED ->
  status (wasteBatches (run trace s) id) = TRANSFERRED.
Proof.
  induction trace as [|t rest IH]; intros s id Hr Hall Hst; simpl.
  - assumption.
  - inversion Hall as [|? ? Ht Hrest]; subst.
    apply IH; [now apply reach_step|assumption|].
    apply transferred_stable; [apply reachable_Inv|]; assumption.
Qed.

(** In a state that satisfies the invariant, a batch that has left CREATED
    exists. *)
Lemma Inv_moved_exists s id :
  Inv s -> status (wasteBatches s id) <> CREATED ->
  batchId (wasteBatches s id) <> 0.
Proof.
  intros HI Hst Hz. apply Hst.
  assert (Hd : allocated s id \/ ~ allocated s id).
  { unfold allocated. lia. }
  destruct Hd as [Ha|Hf].
  - exfalso. revert Hz. now apply (Inv_exists_iff s id HI).
  - now rewrite (inv_free s HI id Hf).
Qed.

(** Both guarded calls fail with the invalid-state error on a transferred
    batch. *)
Lemma transferred_is_final s env id :
  Inv s ->
  status (wasteBatches s id) = TRANSFERRED ->
  fails_with (fst (transact (commitToPurchase env id) s)) InvalidStateError /\
  fails_with (fst (transact (transferWasteBatch env id) s)) InvalidStateError.
Proof.
  intros HI Hst.
  assert (Hid : (batchId (wasteBatches s id) =? 0) = false).
  { apply Z.eqb_neq, Inv_moved_exists; [assumption|]. now rewrite Hst. }
  split.
  - exists (Revert "Not available").
    rewrite commitToPurchase_run by apply (inv_guard s HI).
    rewrite Hid, Hst. now split.
  - exists (Revert "Buyer not committed").
    rewrite transferWasteBatch_run by apply (inv_guard s HI).
    rewrite Hid, Hst. now split.
Qed.

(** C2. When a batch of a reachable state has status COMMITTED, committed
    buyer B and current owner O, [transferWasteBatch] called by O
    succeeds; afterwards [getWasteBatch] shows current owner B and status
    TRANSFERRED; and from then on, after any further transactions, every
    [commitToPurchase] and every [transferWasteBatch] on that batch fails
    with the invalid-state error. *)
Theorem transfer_completes (s : State) (env : Env) (id : uint256) :
  reachable s ->
  status (wasteBatches s id) = COMMITTED ->
  msg_sender env = currentOwner (wasteBatches s id) ->
  exists s',
    transact (transferWasteBatch env id) s = (Ok tt, s') /\
    (exists b, getWasteBatch id s' = (Ok b, s') /\
               currentOwner b = committedBuyer (wasteBatches s id) /\
               status b = TRANSFERRED) /\
    (forall trace env2,
       Forall (fun t => sender_ok (tx_env t)) trace ->
       fails_with (fst (transact (commitToPurchase env2 id) (run trace s')))
                  InvalidStateError /\
       fails_with (fst (transact (transferWasteBatch env2 id) (run trace s')))
                  InvalidStateError).
Proof.
  intros Hr Hst Hown. pose proof (reachable_Inv s Hr) as HI.
  assert (Hid : batchId (wasteBatches s id) <> 0).
  { apply Inv_moved_exists; [assumption|]. now rewrite Hst. }
  assert (Hb : committedBuyer (wasteBatches s id) <> address0).
  { apply (Inv_buyer_iff s id HI). now left. }
  assert (Ho : currentOwner (wasteBatches s id) <> address0).
  { apply (inv_alloc s HI id). now apply Inv_exists_allocated. }
  assert (Hrun : transact (transferWasteBatch env id) s
                 = (Ok tt, transferred_state id s)).
  { rewrite transferWasteBatch_run by apply (inv_guard s HI).
    apply Z.eqb_neq in Hid. apply Z.eqb_neq in Hb.
    rewrite Hid, Hst, Hb. simpl.
    now rewrite (proj2 (Z.eqb_eq _ _) Hown). }
  assert (Hlook : wasteBatches (transferred_state id s) id =
                  set_status TRANSFERRED
                    (set_currentOwner (committedBuyer (wasteBatches s id))
                       (wasteBatches s id))).
  { rewrite transferred_state_lookup. now rewrite Z.eqb_refl. }
  assert (Hr' : reachable (transferred_state id s)).
  { replace (transferred_state id s)
      with (step (mkTx env (TransferWasteBatch id)) s).
    - apply reach_step; [assumption|]. unfold sender_ok; simpl. congruence.
    - unfold step; simpl. now rewrite Hrun. }
  exists (transferred_state id s). split; [assumption|]. split.
  - exists (wasteBatches (transferred_state id s) id).
    rewrite getWasteBatch_run, Hlook. simpl.
    apply Z.eqb_neq in Hid. rewrite Hid. repeat split.
  - intros trace env2 Hall. apply transferred_is_final.
    + apply reachable_Inv, reachable_run; assumption.
    + apply transferred_forever; try assumption.
      now rewrite Hlook.
Qed.

Lemma transfer_completes_witness :
  reachable pledged /\
  status (wasteBatches pledged 1) = COMMITTED /\
  msg_sender seller_env = currentOwner (wasteBatches pledged 1) /\
  exists s',
    transact (transferWasteBatch seller_env 1) pledged = (Ok tt, s') /\
    (exists b, getWasteBatch 1 s' = (Ok b, s') /\
               currentOwner b = 3 /\ status b = TRANSFERRED) /\
    (forall trace env2,
       Forall (fun t => sender_ok (tx_env t)) trace ->
       fails_with (fst (transact (commitToPurchase env2 1) (run trace s')))
                  InvalidStateError /\
       fails_with (fst (transact (transferWasteBatch env2 1) (run trace s')))
                  InvalidStateError).
Proof.
  assert (H2 : status (wasteBatches pledged 1) = COMMITTED) by reflexivity.
  assert (H3 : msg_sender seller_env = currentOwner (wasteBatches pledged 1))
    by reflexivity.
  split; [apply reachable_pledged|].
  repeat (split; [assumption|]).
  exact (transfer_completes pledged seller_env 1 reachable_pledged H2 H3).
Defined.

(** C5, as worded, does not hold: on an existing batch that is still in
    status CREATED, [transferWasteBatch] called by somebody who is not the
    owner is rejected by the status check, which comes first, and the
    failure is the invalid-state error, not the authorization error. *)
Lemma transfer_by_stranger_counterexample :
  reachable listed /\
  batchId (wasteBatches listed 1) <> 0 /\
  msg_sender buyer_env <> currentOwner (wasteBatches listed 1) /\
  transact (transferWasteBatch buyer_env 1) listed
    = (Err (Revert "Buyer not committed"), listed) /\
  ~ fails_with (fst (transact (transferWasteBatch buyer_env 1) listed))
               AuthorizationError.
Proof.
  split; [apply reachable_listed|].
  split; [discriminate|]. split; [discriminate|].
  split; [reflexivity|].
  intros (e & He & Hk). vm_compute in He. inversion He; subst e.
  discriminate Hk.
Qed.

(** C5, amended. On an existing batch in status COMMITTED,
    [transferWasteBatch] called by anybody but the current owner fails
    with the authorization error and leaves the whole state unchanged.  In
    the other two statuses the status check is the one that fails: the
    call is rejected with the invalid-state error, state unchanged too. *)
Theorem transfer_by_stranger (s : State) (env : Env) (id : uint256) :
  in_flight s = false ->
  batchId (wasteBatches s id) <> 0 ->
  msg_sender env <> currentOwner (wasteBatches s id) ->
  (status (wasteBatches s id) = COMMITTED ->
   exists e, transact (transferWasteBatch env id) s = (Err e, s) /\
             error_kind e = AuthorizationError) /\
  (status (wasteBatches s id) <> COMMITTED ->
   exists e, transact (transferWasteBatch env id) s = (Err e, s) /\
             error_kind e = InvalidStateError).
Proof.
  intros Hg Hid Hown.
  apply Z.eqb_neq in Hid. apply Z.eqb_neq in Hown.
  split; intros Hst.
  - exists (Revert "Not batch owner").
    rewrite transferWasteBatch_run by assumption.
    rewrite Hid, Hst, Hown. now split.
  - exists (Revert "Buyer not committed").
    rewrite transferWasteBatch_run by assumption. rewrite Hid.
    destruct (WasteStatus_eqb_spec (status (wasteBatches s id)) COMMITTED);
      [contradiction|]. now split.
Qed.

Lemma transfer_by_stranger_witness :
  in_flight pledged = false /\
  batchId (wasteBatches pledged 1) <> 0 /\
  msg_sender admin <> currentOwner (wasteBatches pledged 1) /\
  status (wasteBatches pledged 1) = COMMITTED /\
  exists e, transact (transferWasteBatch admin 1) pledged = (Err e, pledged) /\
            error_kind e = AuthorizationError.
Proof.
  assert (H1 : in_flight pledged = false) by reflexivity.
  assert (H2 : batchId (wasteBatches pledged 1) <> 0) by discriminate.
  assert (H3 : msg_sender admin <> currentOwner (wasteBatches pledged 1))
    by discriminate.
  assert (H4 : status (wasteBatches pledged 1) = COMMITTED) by reflexivity.
  repeat (split; [assumption|]).
  exact (proj1 (transfer_by_stranger pledged admin 1 H1 H2 H3) H4).
Defined.

(** ** Creation *)

(** C6. [createWasteBatch] rejects, with the storage untouched even at the
    point of failure, a caller who is not the administrator (authorization
    error), a quantity that is zero or below (invalid-quantity error) and a
    zero seller (invalid-address error), the checks being made in this
    order; with quantity 1, the administrator calling and a non-zero
    seller it succeeds, as long as the identifier counter can still be
    incremented. *)
Theorem createWasteBatch_checks (s : State) (env : Env)
    (cat : string) (qty : uint256) (seller : address) :
  (msg_sender env <> owner s ->
   exists e, createWasteBatch env cat qty seller s = (Err e, s) /\
             transact (createWasteBatch env cat qty seller) s = (Err e, s) /\
             error_kind e = AuthorizationError) /\
  (msg_sender env = owner s -> qty <= 0 ->
   exists e, createWasteBatch env cat qty seller s = (Err e, s) /\
             transact (createWasteBatch env cat qty seller) s = (Err e, s) /\
             error_kind e = InvalidQuantityError) /\
  (msg_sender env = owner s -> 0 < qty -> seller = address0 ->
   exists e, createWasteBatch env cat qty seller s = (Err e, s) /\
             transact (createWasteBatch env cat qty seller) s = (Err e, s) /\
             error_kind e = InvalidAddressError) /\
  (msg_sender env <> owner s \/ qty <= 0 \/ seller = address0 ->
   exists e, transact (createWasteBatch env cat qty seller) s = (Err e, s)) /\
  (msg_sender env = owner s -> seller <> address0 ->
   nextBatchId s < MAX_UINT256 ->
   transact (createWasteBatch env cat 1 seller) s
     = (Ok (nextBatchId s), created_state env cat 1 seller s)).
Proof.
  rewrite !createWasteBatch_run, !createWasteBatch_raw.
  destruct (Z.eqb_spec (msg_sender env) (owner s)) as [Ho|Ho]; simpl.
  2:{ split; [intros _; eexists; repeat split|].
      repeat split; try contradiction. intros _. eexists; reflexivity. }
  split; [contradiction|].
  destruct (Z.gtb_spec qty 0) as [Hq|Hq]; simpl.
  2:{ split; [intros _ _; eexists; repeat split|].
      split; [intros; lia|]. split; [intros _; eexists; reflexivity|].
      intros _ Hs Hn. apply Z.eqb_neq in Hs. rewrite Hs.
      destruct (Z.leb_spec (nextBatchId s + 1) MAX_UINT256); simpl;
        [reflexivity|lia]. }
  split; [intros; lia|].
  destruct (Z.eqb_spec seller address0) as [Hs|Hs]; simpl.
  - split; [intros _ _ _; eexists; repeat split|].
    split; [intros _; eexists; reflexivity|]. contradiction.
  - split; [contradiction|]. split; [intros [H|[H|H]]; [contradiction|lia|contradiction]|].
    intros _ _ Hn.
    destruct (Z.leb_spec (nextBatchId s + 1) MAX_UINT256); simpl;
      [reflexivity|lia].
Qed.

(** Where the counter has reached the largest [uint256], the checked
    increment panics and the creation reverts. *)
Remark createWasteBatch_counter_exhausted (s : State) (env : Env)
    (cat : string) (seller : address) :
  msg_sender env = owner s -> seller <> address0 ->
  nextBatchId s = MAX_UINT256 ->
  transact (createWasteBatch env cat 1 seller) s = (Err (Panic 17), s).
Proof.
  intros Ho Hs Hn. rewrite createWasteBatch_run.
  apply Z.eqb_eq in Ho. apply Z.eqb_neq in Hs. rewrite Ho, Hs, Hn. simpl.
  destruct (Z.leb_spec (MAX_UINT256 + 1) MAX_UINT256); [lia|reflexivity].
Qed.

Lemma createWasteBatch_checks_witness :
  (exists e, transact (createWasteBatch buyer_env fly_ash 100 2) genesis
               = (Err e, genesis) /\ error_kind e = AuthorizationError) /\
  (exists e, transact (createWasteBatch admin fly_ash 0 2) genesis
               = (Err e, genesis) /\ error_kind e = InvalidQuantityError) /\
  (exists e, transact (createWasteBatch admin fly_ash 100 address0) genesis
               = (Err e, genesis) /\ error_kind e = InvalidAddressError) /\
  fst (transact (createWasteBatch admin fly_ash 1 2) genesis) = Ok 1.
Proof.
  split; [|split; [|split]].
  - destruct (createWasteBatch_checks genesis buyer_env fly_ash 100 2)
      as (H & _).
    destruct H as (e & _ & H1 & H2); [discriminate|].
    exists e. now split.
  - destruct (createWasteBatch_checks genesis admin fly_ash 0 2)
      as (_ & H & _).
    destruct H as (e & _ & H1 & H2); [reflexivity|lia|].
    exists e. now split.
  - destruct (createWasteBatch_checks genesis admin fly_ash 100 address0)
      as (_ & _ & H & _).
    destruct H as (e & _ & H1 & H2); [reflexivity|lia|reflexivity|].
    exists e. now split.
  - destruct (createWasteBatch_checks genesis admin fly_ash 1 2)
      as (_ & _ & _ & _ & H).
    rewrite H; [reflexivity|reflexivity|discriminate|reflexivity].
Defined.

(** ** Failed calls *)

(** C7. A call that fails changes nothing.  As a transaction, every failing
    [createWasteBatch], [commitToPurchase] and [transferWasteBatch] ends in
    the state it started from.  And the code itself checks before it
    writes: where a check fails, the mapping, the counter and the log are
    still as they were (for [createWasteBatch] the whole storage is; the
    two guarded calls have taken the guard, nothing else); the one failure
    after a write, the overflow panic of [nextBatchId++], is undone by the
    revert. *)
Theorem failed_call_changes_nothing (s : State) (env : Env) :
  (forall cat qty seller e s1,
     createWasteBatch env cat qty seller s = (Err e, s1) ->
     transact (createWasteBatch env cat qty seller) s = (Err e, s) /\
     step (mkTx env (CreateWasteBatch cat qty seller)) s = s /\
     (e <> Panic 17 -> s1 = s)) /\
  (forall id e s1,
     commitToPurchase env id s = (Err e, s1) ->
     transact (commitToPurchase env id) s = (Err e, s) /\
     step (mkTx env (CommitToPurchase id)) s = s /\
     wasteBatches s1 = wasteBatches s /\
     nextBatchId s1 = nextBatchId s /\
     events s1 = events s /\ owner s1 = owner s) /\
  (forall id e s1,
     transferWasteBatch env id s = (Err e, s1) ->
     transact (transferWasteBatch env id) s = (Err e, s) /\
     step (mkTx env (TransferWasteBatch id)) s = s /\
     wasteBatches s1 = wasteBatches s /\
     nextBatchId s1 = nextBatchId s /\
     events s1 = events s /\ owner s1 = owner s).
Proof.
  split; [|split].
  - intros cat qty seller e s1 H.
    unfold step, transact; simpl. rewrite H. simpl.
    split; [reflexivity|]. split; [reflexivity|].
    rewrite createWasteBatch_raw in H. revert H.
    destruct (negb (msg_sender env =? owner s)); [congruence|].
    destruct (negb (qty >? 0)); [congruence|].
    destruct (seller =? address0); [congruence|].
    destruct (negb (nextBatchId s + 1 <=? MAX_UINT256)); [|discriminate].
    intros H Hne. exfalso. apply Hne. congruence.
  - intros id e s1 H.
    unfold step, transact; simpl. rewrite H. simpl.
    split; [reflexivity|]. split; [reflexivity|].
    rewrite commitToPurchase_raw in H. revert H.
    destruct (in_flight s); [intros H; inversion H; now subst|].
    destruct (batchId (wasteBatches s id) =? 0);
      [intros H; inversion H; now subst|].
    destruct (negb _); [intros H; inversion H; now subst|].
    destruct (_ =? _); [intros H; inversion H; now subst|discriminate].
  - intros id e s1 H.
    unfold step, transact; simpl. rewrite H. simpl.
    split; [reflexivity|]. split; [reflexivity|].
    rewrite transferWasteBatch_raw in H. revert H.
    destruct (in_flight s); [intros H; inversion H; now subst|].
    destruct (batchId (wasteBatches s id) =? 0);
      [intros H; inversion H; now subst|].
    destruct (negb _); [intros H; inversion H; now subst|].
    destruct (negb _); [intros H; inversion H; now subst|].
    destruct (_ =? _); [intros H; inversion H; now subst|discriminate].
Qed.

Lemma failed_call_changes_nothing_witness :
  commitToPurchase seller_env 1 listed
    = (Err (Revert "Owner cannot buy"), with_in_flight true listed) /\
  transact (commitToPurchase seller_env 1) listed
    = (Err (Revert "Owner cannot buy"), listed) /\
  wasteBatches (with_in_flight true listed) = wasteBatches listed.
Proof.
  assert (H : commitToPurchase seller_env 1 listed
              = (Err (Revert "Owner cannot buy"), with_in_flight true listed))
    by reflexivity.
  split; [exact H|].
  destruct (failed_call_changes_nothing listed seller_env) as (_ & Hc & _).
  destruct (Hc 1 _ _ H) as (H1 & _ & H2 & _).
  split; [exact H1|exact H2].
Defined.

(** ** Identifiers *)

Lemma highest_nonneg ids : 0 <= highest ids.
Proof. induction ids as [|i ids IH]; simpl; lia. Qed.

(** What one transaction does to the counter. *)
Lemma step_counter t s :
  match created_id t s with
  | Some id => id = nextBatchId s /\ nextBatchId (step t s) = nextBatchId s + 1
  | None => nextBatchId (step t s) = nextBatchId s
  end.
Proof.
  unfold created_id, step. destruct (tx_call t) as [cat qty seller|id|id].
  - rewrite createWasteBatch_run.
    destruct (negb (msg_sender (tx_env t) =? owner s)); [reflexivity|].
    destruct (negb (qty >? 0)); [reflexivity|].
    destruct (seller =? address0); [reflexivity|].
    destruct (negb (nextBatchId s + 1 <=? MAX_UINT256)); [reflexivity|].
    split; reflexivity.
  - unfold transact. rewrite commitToPurchase_raw.
    destruct (in_flight s); [reflexivity|].
    destruct (batchId (wasteBatches s id) =? 0); [reflexivity|].
    destruct (negb _); [reflexivity|].
    destruct (_ =? _); reflexivity.
  - unfold transact. rewrite transferWasteBatch_raw.
    destruct (in_flight s); [reflexivity|].
    destruct (batchId (wasteBatches s id) =? 0); [reflexivity|].
    destruct (negb _); [reflexivity|].
    destruct (negb _); [reflexivity|].
    destruct (_ =? _); reflexivity.
Qed.

(** The counter is always one more than the highest identifier handed out
    so far. *)
Lemma counter_tracks_highest trace : forall s,
  1 <= nextBatchId s ->
  nextBatchId (run trace s) - 1
  = Z.max (nextBatchId s - 1) (highest (assigned_ids trace s)).
Proof.
  induction trace as [|t rest IH]; intros s Hs; simpl.
  - lia.
  - pose proof (step_counter t s) as Hc.
    destruct (created_id t s) as [id|].
    + destruct Hc as [-> Hn]. rewrite IH, Hn by lia. simpl.
      pose proof (highest_nonneg (assigned_ids rest (step t s))). lia.
    + rewrite IH, Hc by lia. reflexivity.
Qed.

(** The counter grows by at most one per transaction, so that the checked
    increment of [createWasteBatch] cannot panic before some 2^256
    transactions have been made. *)
Lemma counter_le_trace_length trace : forall s,
  nextBatchId (run trace s) <= nextBatchId s + Z.of_nat (List.length trace).
Proof.
  induction trace as [|t rest IH]; intros s.
  - simpl. lia.
  - change (run (t :: rest) s) with (run rest (step t s)).
    specialize (IH (step t s)). rewrite length_cons, Nat2Z.inj_succ.
    pose proof (step_counter t s) as Hc.
    destruct (created_id t s) as [id|]; [destruct Hc as [_ Hc]|]; lia.
Qed.

Remark counter_has_room (deployer : Env) (trace : list Tx) :
  Z.of_nat (List.length trace) < MAX_UINT256 - 1 ->
  nextBatchId (run trace (constructor deployer)) < MAX_UINT256.
Proof.
  intros H.
  pose proof (counter_le_trace_length trace (constructor deployer)) as Hc.
  change (nextBatchId (constructor deployer)) with 1 in Hc. lia.
Qed.

(** C4. The identifier that a successful [createWasteBatch] returns is one
    more than the highest identifier assigned before it, and 1 when none
    was: the counter is 1 after the constructor, the call returns the
    counter, and it leaves the counter incremented by exactly one. *)
Theorem createWasteBatch_sequential (deployer : Env) (trace : list Tx)
    (env : Env) (cat : string) (qty : uint256) (seller : address)
    (id : uint256) (s' : State) :
  transact (createWasteBatch env cat qty seller)
           (run trace (constructor deployer)) = (Ok id, s') ->
  id = highest (assigned_ids trace (constructor deployer)) + 1 /\
  (assigned_ids trace (constructor deployer) = [] -> id = 1) /\
  nextBatchId (constructor deployer) = 1 /\
  id = nextBatchId (run trace (constructor deployer)) /\
  nextBatchId s' = nextBatchId (run trace (constructor deployer)) + 1.
Proof.
  intros H. rewrite createWasteBatch_run in H.
  assert (Hc := counter_tracks_highest trace (constructor deployer)).
  specialize (Hc ltac:(simpl; lia)).
  pose proof (highest_nonneg (assigned_ids trace (constructor deployer))) as Hh.
  simpl in Hc.
  destruct (negb (msg_sender env =? owner _)); [discriminate|].
  destruct (negb (qty >? 0)); [discriminate|].
  destruct (seller =? address0); [discriminate|].
  destruct (negb (_ <=? MAX_UINT256)); [discriminate|].
  inversion H; subst id s'; clear H. simpl.
  split; [lia|]. split; [|split; [reflexivity|split; reflexivity]].
  intros Hnil. rewrite Hnil in Hc. simpl in Hc. lia.
Qed.

Lemma createWasteBatch_sequential_witness :
  assigned_ids sample_trace (constructor admin) = [1] /\
  fst (transact (createWasteBatch admin fly_ash 7 5)
         (run sample_trace (constructor admin))) = Ok 2 /\
  2 = highest (assigned_ids sample_trace (constructor admin)) + 1.
Proof.
  split; [reflexivity|]. split; [reflexivity|].
  refine (proj1 (createWasteBatch_sequential admin sample_trace
                   admin fly_ash 7 5 2 _ _)).
  reflexivity.
Defined.

(** ** The guard *)

Lemma keeps_guard_bind {A B} (m : M A) (k : A -> M B) :
  keeps_guard m -> (forall a, keeps_guard (k a)) -> keeps_guard (bind m k).
Proof.
  intros Hm Hk s. unfold bind. specialize (Hm s).
  destruct (m s) as [[a|e] s1]; simpl in *; [|assumption].
  now rewrite Hk.
Qed.

Lemma keeps_guard_require c r : keeps_guard (require c r).
Proof. intros s. now destruct c. Qed.

Lemma keeps_guard_sload {A} id (f : WasteBatch -> A) : keeps_guard (sload id f).
Proof. intros s. reflexivity. Qed.

Lemma keeps_guard_sstore id f : keeps_guard (sstore id f).
Proof. intros s. reflexivity. Qed.

Lemma keeps_guard_emit e : keeps_guard (emit e).
Proof. intros s. reflexivity. Qed.

#[local] Hint Resolve keeps_guard_require keeps_guard_sload
  keeps_guard_sstore keeps_guard_emit : guard.

Ltac keeps_guard_steps :=
  repeat (apply keeps_guard_bind; [auto with guard|intros ?]);
  auto with guard.

Lemma commitToPurchase_body_keeps_guard env id :
  keeps_guard (commitToPurchase_body env id).
Proof. unfold commitToPurchase_body. keeps_guard_steps. Qed.

Lemma transferWasteBatch_body_keeps_guard env id :
  keeps_guard (transferWasteBatch_body env id).
Proof. unfold transferWasteBatch_body. keeps_guard_steps. Qed.

(** How a guarded call runs from a state whose guard is free: the guard is
    taken, the body runs, and the guard is released if the body succeeded. *)
Lemma nonReentrant_free {A} (body : M A) s :
  in_flight s = false ->
  nonReentrant body s =
  match body (with_in_flight true s) with
  | (Ok a, s1) => (Ok a, with_in_flight false s1)
  | (Err e, s1) => (Err e, s1)
  end.
Proof.
  intros H. run_monad. rewrite H.
  destruct (body (with_in_flight true s)) as [[a|e] s1]; reflexivity.
Qed.

(** C9. While a guarded operation is in flight the guard is held: the
    bodies of [commitToPurchase] and [transferWasteBatch] run with the flag
    set and no statement of theirs clears it.  In any state in which the
    flag is set, an invocation of either guarded operation fails at once
    with the re-entrancy error, before it reads or writes a batch, and the
    storage stays as it is. *)
Theorem reentrant_call_rejected (s : State) (env : Env) (id : uint256) :
  in_flight s = true ->
  commitToPurchase env id s = (Err ReentrancyGuardReentrantCall, s) /\
  transferWasteBatch env id s = (Err ReentrancyGuardReentrantCall, s) /\
  transact (commitToPurchase env id) s
    = (Err ReentrancyGuardReentrantCall, s) /\
  transact (transferWasteBatch env id) s
    = (Err ReentrancyGuardReentrantCall, s) /\
  (forall env0 id0,
     in_flight (snd (commitToPurchase_body env0 id0 s)) = true /\
     in_flight (snd (transferWasteBatch_body env0 id0 s)) = true) /\
  (forall s0 env0 id0,
     in_flight s0 = false ->
     in_flight (with_in_flight true s0) = true /\
     commitToPurchase env0 id0 s0 =
       match commitToPurchase_body env0 id0 (with_in_flight true s0) with
       | (Ok a, s1) => (Ok a, with_in_flight false s1)
       | (Err e, s1) => (Err e, s1)
       end /\
     transferWasteBatch env0 id0 s0 =
       match transferWasteBatch_body env0 id0 (with_in_flight true s0) with
       | (Ok a, s1) => (Ok a, with_in_flight false s1)
       | (Err e, s1) => (Err e, s1)
       end).
Proof.
  intros H.
  assert (Hc : commitToPurchase env id s
               = (Err ReentrancyGuardReentrantCall, s)).
  { now apply nonReentrant_held. }
  assert (Ht : transferWasteBatch env id s
               = (Err ReentrancyGuardReentrantCall, s)).
  { now apply nonReentrant_held. }
  split; [assumption|]. split; [assumption|].
  split; [unfold transact; now rewrite Hc|].
  split; [unfold transact; now rewrite Ht|].
  split.
  - intros env0 id0.
    rewrite commitToPurchase_body_keeps_guard,
            transferWasteBatch_body_keeps_guard. now split.
  - intros s0 env0 id0 H0. split; [reflexivity|].
    split; now apply nonReentrant_free.
Qed.

Lemma reentrant_call_rejected_witness :
  in_flight (with_in_flight true listed) = true /\
  commitToPurchase buyer_env 1 (with_in_flight true listed)
    = (Err ReentrancyGuardReentrantCall, with_in_flight true listed) /\
  transferWasteBatch seller_env 1 (with_in_flight true listed)
    = (Err ReentrancyGuardReentrantCall, with_in_flight true listed).
Proof.
  assert (H : in_flight (with_in_flight true listed) = true) by reflexivity.
  split; [exact H|].
  split.
  - exact (proj1 (reentrant_call_rejected _ buyer_env 1 H)).
  - exact (proj1 (proj2 (reentrant_call_rejected _ seller_env 1 H))).
Defined.

(** ** Further properties of the contract *)

(** The case analysis of a transaction holds in every state: with the
    guard held the two guarded calls revert, and [createWasteBatch] does
    not look at the guard. *)
Lemma step_cases t s : transition t s (step t s).
Proof.
  destruct (in_flight s) eqn:Hg; [|now apply step_transition].
  unfold step. destruct (tx_call t) as [cat qty seller|id|id] eqn:Hc.
  - rewrite createWasteBatch_run.
    destruct (Z.eqb_spec (msg_sender (tx_env t)) (owner s)); simpl;
      [|constructor].
    destruct (Z.gtb_spec qty 0); simpl; [|constructor].
    destruct (Z.eqb_spec seller address0); simpl; [constructor|].
    destruct (Z.leb_spec (nextBatchId s + 1) MAX_UINT256); simpl;
      [|constructor].
    now apply tr_created.
  - unfold transact, commitToPurchase.
    rewrite nonReentrant_held by assumption. constructor.
  - unfold transact, transferWasteBatch.
    rewrite nonReentrant_held by assumption. constructor.
Qed.

Lemma run_app trace1 : forall trace2 s,
  run (trace1 ++ trace2) s = run trace2 (run trace1 s).
Proof.
  induction trace1 as [|t rest IH]; intros trace2 s; simpl;
    [reflexivity|apply IH].
Qed.

Lemma in_snoc {A} (x y : A) l : In x (l ++ [y]) <-> In x l \/ x = y.
Proof.
  rewrite in_app_iff. simpl. intuition congruence.
Qed.

Lemma NoDup_snoc {A} (x : A) l : NoDup l -> ~ In x l -> NoDup (l ++ [x]).
Proof.
  intros Hl Hx. induction Hl as [|y l Hy Hl IH]; simpl.
  - constructor; [intros []|constructor].
  - constructor.
    + rewrite in_snoc. intros [H|H]; [contradiction|].
      apply Hx. left. congruence.
    + apply IH. intros H. apply Hx. now right.
Qed.

Lemma allocated_dec s id : allocated s id \/ ~ allocated s id.
Proof. unfold allocated. lia. Qed.

Lemma Ledger_constructor env : Ledger (constructor env).
Proof.
  constructor; simpl.
  - apply Inv_constructor.
  - intros id. split; discriminate.
  - intros id seller cat qty [].
  - intros id H. unfold allocated in H; simpl in H. lia.
  - intros id buyer [].
  - intros id H. now contradiction H.
  - intros id from to [].
  - discriminate.
  - constructor.
Qed.

(** The ledger invariant is kept by each of the three transitions. *)
Lemma Ledger_created t s cat qty seller :
  Ledger s ->
  msg_sender (tx_env t) = owner s -> 0 < qty -> seller <> address0 ->
  nextBatchId s + 1 <= MAX_UINT256 ->
  sender_ok (tx_env t) ->
  tx_call t = CreateWasteBatch cat qty seller ->
  Ledger (created_state (tx_env t) cat qty seller s).
Proof.
  intros HL Ho Hq Hsel Hhi Hs Hc.
  pose proof (led_inv s HL) as HI.
  pose proof (inv_next_lo s HI) as Hlo.
  assert (HI' : Inv (created_state (tx_env t) cat qty seller s)).
  { apply (Inv_transition t s); try assumption. now apply tr_created. }
  assert (Hold : forall id, allocated s id ->
            wasteBatches (created_state (tx_env t) cat qty seller s) id
            = wasteBatches s id).
  { intros id Ha. rewrite created_state_lookup.
    destruct (Z.eqb_spec id (nextBatchId s)) as [->|Hne]; [|reflexivity].
    unfold allocated in Ha. lia. }
  assert (Hmoved : forall id,
            status (wasteBatches (created_state (tx_env t) cat qty seller s) id)
              <> CREATED -> allocated s id).
  { intros id. rewrite created_state_lookup.
    destruct (Z.eqb_spec id (nextBatchId s)) as [->|Hne]; simpl.
    - intros H; now contradiction H.
    - intros H. destruct (allocated_dec s id) as [Ha|Ha]; [assumption|].
      rewrite (inv_free s HI id Ha) in H. now contradiction H. }
  constructor.
  - assumption.
  - intros id. split; intros H.
    + assert (Ha : allocated s id) by (apply Hmoved; rewrite H; discriminate).
      rewrite Hold in * by assumption. now apply (led_parties s HL id).
    + assert (Ha : allocated s id) by (apply Hmoved; rewrite H; discriminate).
      rewrite Hold in * by assumption. now apply (led_parties s HL id).
  - intros id sl c q Hin. simpl in Hin. apply in_snoc in Hin.
    destruct Hin as [Hin|Heq].
    + destruct (led_created s HL id sl c q Hin) as (Ha & H).
      rewrite Hold by assumption. split; [|assumption].
      unfold allocated in *; simpl. lia.
    + inversion Heq; subst. rewrite created_state_lookup, Z.eqb_refl. simpl.
      split; [unfold allocated; simpl; lia|]. repeat split.
  - intros id Ha.
    destruct (Z.eq_dec id (nextBatchId s)) as [->|Hne].
    + exists seller. rewrite created_state_lookup, Z.eqb_refl. simpl.
      apply in_snoc. now right.
    + assert (Ha' : allocated s id).
      { unfold allocated in *; simpl in Ha. lia. }
      destruct (led_created_all s HL id Ha') as (sl & Hin).
      exists sl. rewrite Hold by assumption. simpl.
      apply in_snoc. now left.
  - intros id buyer Hin. simpl in Hin. apply in_snoc in Hin.
    destruct Hin as [Hin|Heq]; [|discriminate].
    destruct (led_committed s HL id buyer Hin) as (H1 & H2).
    assert (Ha : allocated s id).
    { destruct (allocated_dec s id) as [Ha|Ha]; [assumption|].
      rewrite (inv_free s HI id Ha) in H1. now contradiction H1. }
    rewrite Hold by assumption. now split.
  - intros id H. pose proof (Hmoved id H) as Ha.
    rewrite Hold in * by assumption. simpl. apply in_snoc. left.
    now apply (led_committed_all s HL).
  - intros id from to Hin. simpl in Hin. apply in_snoc in Hin.
    destruct Hin as [Hin|Heq]; [|discriminate].
    destruct (led_transferred s HL id from to Hin) as (H1 & H2 & H3).
    assert (Ha : allocated s id).
    { destruct (allocated_dec s id) as [Ha|Ha]; [assumption|].
      rewrite (inv_free s HI id Ha) in H1. discriminate. }
    rewrite Hold by assumption. split; [assumption|]. split; [assumption|].
    intros sl c q Hin'. simpl in Hin'. apply in_snoc in Hin'.
    destruct Hin' as [Hin'|Heq]; [now apply (H3 sl c q)|].
    inversion Heq; subst. unfold allocated in Ha. lia.
  - intros id H.
    assert (Ha : allocated s id) by (apply Hmoved; rewrite H; discriminate).
    rewrite Hold in * by assumption.
    destruct (led_transferred_all s HL id H) as (from & Hin).
    exists from. simpl. apply in_snoc. now left.
  - simpl. apply NoDup_snoc; [apply (led_nodup s HL)|].
    intros Hin. destruct (led_created s HL _ _ _ _ Hin) as (Ha & _).
    unfold allocated in Ha. lia.
Qed.

Lemma Ledger_committed t s id0 :
  Ledger s ->
  batchId (wasteBatches s id0) <> 0 ->
  status (wasteBatches s id0) = CREATED ->
  msg_sender (tx_env t) <> currentOwner (wasteBatches s id0) ->
  sender_ok (tx_env t) ->
  tx_call t = CommitToPurchase id0 ->
  Ledger (committed_state (tx_env t) id0 s).
Proof.
  intros HL Hid Hst Hown Hs Hc.
  pose proof (led_inv s HL) as HI.
  assert (HI' : Inv (committed_state (tx_env t) id0 s)).
  { apply (Inv_transition t s); try assumption. now apply tr_committed. }
  assert (Hnew : wasteBatches (committed_state (tx_env t) id0 s) id0
                 = set_status COMMITTED
                     (set_committedBuyer (msg_sender (tx_env t))
                        (wasteBatches s id0))).
  { rewrite committed_state_lookup. now rewrite Z.eqb_refl. }
  assert (Hsame : forall id, id <> id0 ->
            wasteBatches (committed_state (tx_env t) id0 s) id
            = wasteBatches s id).
  { intros id Hne. rewrite committed_state_lookup.
    apply Z.eqb_neq in Hne. now rewrite Hne. }
  assert (Hev : events (committed_state (tx_env t) id0 s)
                = events s ++ [PurchaseCommitted id0 (msg_sender (tx_env t))])
    by reflexivity.
  constructor.
  - assumption.
  - intros id. destruct (Z.eq_dec id id0) as [->|Hne].
    + rewrite Hnew. simpl. split; [intros _; congruence|discriminate].
    + rewrite Hsame by assumption. apply (led_parties s HL id).
  - intros id sl c q Hin. rewrite Hev in Hin. apply in_snoc in Hin.
    destruct Hin as [Hin|Heq]; [|discriminate].
    destruct (led_created s HL id sl c q Hin) as (Ha & H1 & H2 & H3).
    split; [exact Ha|].
    destruct (Z.eq_dec id id0) as [->|Hne].
    + rewrite Hnew. simpl. repeat split; try assumption.
      intros _. apply H3. rewrite Hst. discriminate.
    + rewrite Hsame by assumption. repeat split; assumption.
  - intros id Ha.
    destruct (led_created_all s HL id Ha) as (sl & Hin).
    exists sl. rewrite Hev. apply in_snoc. left.
    destruct (Z.eq_dec id id0) as [->|Hne].
    + rewrite Hnew. exact Hin.
    + rewrite Hsame by assumption. exact Hin.
  - intros id buyer Hin. rewrite Hev in Hin. apply in_snoc in Hin.
    destruct Hin as [Hin|Heq].
    + destruct (led_committed s HL id buyer Hin) as (H1 & H2).
      destruct (Z.eq_dec id id0) as [->|Hne]; [congruence|].
      rewrite Hsame by assumption. now split.
    + inversion Heq; subst. rewrite Hnew. simpl. split; [discriminate|reflexivity].
  - intros id H. rewrite Hev. apply in_snoc.
    destruct (Z.eq_dec id id0) as [->|Hne].
    + right. rewrite Hnew. reflexivity.
    + left. rewrite Hsame in * by assumption.
      now apply (led_committed_all s HL).
  - intros id from to Hin. rewrite Hev in Hin. apply in_snoc in Hin.
    destruct Hin as [Hin|Heq]; [|discriminate].
    destruct (led_transferred s HL id from to Hin) as (H1 & H2 & H3).
    destruct (Z.eq_dec id id0) as [->|Hne]; [congruence|].
    rewrite Hsame by assumption. split; [assumption|]. split; [assumption|].
    intros sl c q Hin'. rewrite Hev in Hin'. apply in_snoc in Hin'.
    destruct Hin' as [Hin'|Heq]; [now apply (H3 sl c q)|discriminate].
  - intros id H.
    destruct (Z.eq_dec id id0) as [->|Hne].
    + rewrite Hnew in H. discriminate.
    + rewrite Hsame in * by assumption.
      destruct (led_transferred_all s HL id H) as (from & Hin).
      exists from. rewrite Hev. apply in_snoc. now left.
  - rewrite Hev. apply NoDup_snoc; [apply (led_nodup s HL)|].
    intros Hin. destruct (led_committed s HL _ _ Hin) as (H & _). congruence.
Qed.

Lemma Ledger_transferred t s id0 :
  Ledger s ->
  batchId (wasteBatches s id0) <> 0 ->
  status (wasteBatches s id0) = COMMITTED ->
  msg_sender (tx_env t) = currentOwner (wasteBatches s id0) ->
  committedBuyer (wasteBatches s id0) <> address0 ->
  sender_ok (tx_env t) ->
  tx_call t = TransferWasteBatch id0 ->
  Ledger (transferred_state id0 s).
Proof.
  intros HL Hid Hst Hown Hb Hs Hc.
  pose proof (led_inv s HL) as HI.
  assert (HI' : Inv (transferred_state id0 s)).
  { apply (Inv_transition t s); try assumption. now apply tr_transferred. }
  assert (Hnew : wasteBatches (transferred_state id0 s) id0
                 = set_status TRANSFERRED
                     (set_currentOwner (committedBuyer (wasteBatches s id0))
                        (wasteBatches s id0))).
  { rewrite transferred_state_lookup. now rewrite Z.eqb_refl. }
  assert (Hsame : forall id, id <> id0 ->
            wasteBatches (transferred_state id0 s) id = wasteBatches s id).
  { intros id Hne. rewrite transferred_state_lookup.
    apply Z.eqb_neq in Hne. now rewrite Hne. }
  assert (Hev : events (transferred_state id0 s)
                = events s ++
                  [WasteBatchTransferred id0
                     (currentOwner (wasteBatches s id0))
                     (committedBuyer (wasteBatches s id0))])
    by reflexivity.
  constructor.
  - assumption.
  - intros id. destruct (Z.eq_dec id id0) as [->|Hne].
    + rewrite Hnew. simpl. split; [discriminate|reflexivity].
    + rewrite Hsame by assumption. apply (led_parties s HL id).
  - intros id sl c q Hin. rewrite Hev in Hin. apply in_snoc in Hin.
    destruct Hin as [Hin|Heq]; [|discriminate].
    destruct (led_created s HL id sl c q Hin) as (Ha & H1 & H2 & H3).
    split; [exact Ha|].
    destruct (Z.eq_dec id id0) as [->|Hne].
    + rewrite Hnew. simpl. repeat split; try assumption.
      intros H. now contradiction H.
    + rewrite Hsame by assumption. repeat split; assumption.
  - intros id Ha.
    destruct (led_created_all s HL id Ha) as (sl & Hin).
    exists sl. rewrite Hev. apply in_snoc. left.
    destruct (Z.eq_dec id id0) as [->|Hne].
    + rewrite Hnew. exact Hin.
    + rewrite Hsame by assumption. exact Hin.
  - intros id buyer Hin. rewrite Hev in Hin. apply in_snoc in Hin.
    destruct Hin as [Hin|Heq]; [|discriminate].
    destruct (led_committed s HL id buyer Hin) as (H1 & H2).
    destruct (Z.eq_dec id id0) as [->|Hne].
    + rewrite Hnew. simpl. split; [discriminate|assumption].
    + rewrite Hsame by assumption. now split.
  - intros id H. rewrite Hev. apply in_snoc. left.
    destruct (Z.eq_dec id id0) as [->|Hne].
    + rewrite Hnew. simpl. apply (led_committed_all s HL). rewrite Hst.
      discriminate.
    + rewrite Hsame in * by assumption.
      now apply (led_committed_all s HL).
  - intros id from to Hin. rewrite Hev in Hin. apply in_snoc in Hin.
    assert (Hcr : forall sl c q,
              In (WasteBatchCreated id sl c q) (events (transferred_state id0 s))
              -> In (WasteBatchCreated id sl c q) (events s)).
    { intros sl c q Hin'. rewrite Hev in Hin'. apply in_snoc in Hin'.
      destruct Hin' as [Hin'|Heq]; [assumption|discriminate]. }
    destruct Hin as [Hin|Heq].
    + destruct (led_transferred s HL id from to Hin) as (H1 & H2 & H3).
      destruct (Z.eq_dec id id0) as [->|Hne]; [congruence|].
      rewrite Hsame by assumption. split; [assumption|]. split; [assumption|].
      intros sl c q Hin'. apply (H3 sl c q), Hcr, Hin'.
    + inversion Heq; subst. rewrite Hnew. simpl. repeat split.
      intros sl c q Hin'. apply Hcr in Hin'.
      destruct (led_created s HL _ _ _ _ Hin') as (_ & _ & _ & H3).
      symmetry. apply H3. rewrite Hst. discriminate.
  - intros id H.
    destruct (Z.eq_dec id id0) as [->|Hne].
    + exists (currentOwner (wasteBatches s id0)).
      rewrite Hev, Hnew. simpl. apply in_snoc. now right.
    + rewrite Hsame in * by assumption.
      destruct (led_transferred_all s HL id H) as (from & Hin).
      exists from. rewrite Hev. apply in_snoc. now left.
  - rewrite Hev. apply NoDup_snoc; [apply (led_nodup s HL)|].
    intros Hin. destruct (led_transferred s HL _ _ _ Hin) as (H & _).
    congruence.
Qed.

Lemma Ledger_transition t s s' :
  Ledger s -> sender_ok (tx_env t) -> transition t s s' -> Ledger s'.
Proof.
  intros HL Hs Htr.
  destruct Htr as [|cat qty seller Hc Ho Hq Hsel Hhi
                   |id Hc Hid Hst Hown|id Hc Hid Hst Hown Hb].
  - assumption.
  - now apply Ledger_created.
  - now apply Ledger_committed.
  - now apply (Ledger_transferred t).
Qed.

Lemma reachable_Ledger s : reachable s -> Ledger s.
Proof.
  induction 1 as [env Hs|t s Hr IH Hs].
  - apply Ledger_constructor.
  - apply (Ledger_transition t s); try assumption. apply step_cases.
Qed.

(** ** The event log *)

(** X1. Every event in the log of a reachable state is true of the
    storage.  A creation event names an allocated batch with the category
    and quantity stored for it, and its seller is the owner until the batch
    is transferred; a commitment event names the batch's committed buyer; a
    transfer event names a batch that is TRANSFERRED, its present owner as
    the receiver and the seller of its creation event as the sender. *)
Theorem event_log_sound (s : State) :
  reachable s ->
  (forall id seller cat qty,
     In (WasteBatchCreated id seller cat qty) (events s) ->
     allocated s id /\
     category (wasteBatches s id) = cat /\
     quantity (wasteBatches s id) = qty /\
     (status (wasteBatches s id) <> TRANSFERRED ->
      currentOwner (wasteBatches s id) = seller)) /\
  (forall id buyer,
     In (PurchaseCommitted id buyer) (events s) ->
     status (wasteBatches s id) <> CREATED /\
     committedBuyer (wasteBatches s id) = buyer) /\
  (forall id from to,
     In (WasteBatchTransferred id from to) (events s) ->
     status (wasteBatches s id) = TRANSFERRED /\
     currentOwner (wasteBatches s id) = to /\
     committedBuyer (wasteBatches s id) = to /\
     (forall seller cat qty,
        In (WasteBatchCreated id seller cat qty) (events s) -> seller = from)).
Proof.
  intros Hr. pose proof (reachable_Ledger s Hr) as HL.
  split; [apply (led_created s HL)|]. split; [apply (led_committed s HL)|].
  intros id from to Hin.
  destruct (led_transferred s HL id from to Hin) as (H1 & H2 & H3).
  repeat split; try assumption.
  rewrite <- H2. now apply (led_parties s HL id).
Qed.

Lemma event_log_sound_witness :
  reachable handed_over /\
  In (WasteBatchTransferred 1 2 3) (events handed_over) /\
  status (wasteBatches handed_over 1) = TRANSFERRED /\
  currentOwner (wasteBatches handed_over 1) = 3.
Proof.
  assert (Hin : In (WasteBatchTransferred 1 2 3) (events handed_over)).
  { right. right. left. reflexivity. }
  split; [apply reachable_handed_over|]. split; [exact Hin|].
  destruct (event_log_sound handed_over reachable_handed_over) as (_ & _ & H).
  destruct (H 1 2 3 Hin) as (H1 & H2 & _). now split.
Defined.

(** X2. The log of a reachable state is complete: every allocated batch
    has its creation event, every batch that has left CREATED has the
    commitment event of its committed buyer, and every TRANSFERRED batch
    has a transfer event to its present owner. *)
Theorem event_log_complete (s : State) (id : uint256) :
  reachable s ->
  (allocated s id ->
   exists seller,
     In (WasteBatchCreated id seller (category (wasteBatches s id))
           (quantity (wasteBatches s id))) (events s)) /\
  (status (wasteBatches s id) <> CREATED ->
   In (PurchaseCommitted id (committedBuyer (wasteBatches s id))) (events s)) /\
  (status (wasteBatches s id) = TRANSFERRED ->
   exists from,
     In (WasteBatchTransferred id from (currentOwner (wasteBatches s id)))
        (events s)).
Proof.
  intros Hr. pose proof (reachable_Ledger s Hr) as HL.
  split; [apply (led_created_all s HL)|].
  split; [apply (led_committed_all s HL)|apply (led_transferred_all s HL)].
Qed.

Lemma event_log_complete_witness :
  reachable pledged /\
  status (wasteBatches pledged 1) <> CREATED /\
  In (PurchaseCommitted 1 3) (events pledged).
Proof.
  assert (H : status (wasteBatches pledged 1) <> CREATED) by discriminate.
  split; [apply reachable_pledged|]. split; [exact H|].
  exact (proj1 (proj2 (event_log_complete pledged 1 reachable_pledged)) H).
Defined.

(** X3. No event is logged twice, and a batch has at most one event of
    each kind: two creation events, two commitment events or two transfer
    events for the same batch are the same event. *)
Theorem event_log_no_duplicates (s : State) :
  reachable s ->
  NoDup (events s) /\
  (forall id s1 c1 q1 s2 c2 q2,
     In (WasteBatchCreated id s1 c1 q1) (events s) ->
     In (WasteBatchCreated id s2 c2 q2) (events s) ->
     s1 = s2 /\ c1 = c2 /\ q1 = q2) /\
  (forall id b1 b2,
     In (PurchaseCommitted id b1) (events s) ->
     In (PurchaseCommitted id b2) (events s) -> b1 = b2) /\
  (forall id f1 t1 f2 t2,
     In (WasteBatchTransferred id f1 t1) (events s) ->
     In (WasteBatchTransferred id f2 t2) (events s) ->
     f1 = f2 /\ t1 = t2).
Proof.
  intros Hr. pose proof (reachable_Ledger s Hr) as HL.
  split; [apply (led_nodup s HL)|]. split; [|split].
  - intros id s1 c1 q1 s2 c2 q2 H1 H2.
    destruct (led_created s HL _ _ _ _ H1) as (_ & Hc1 & Hq1 & Ho1).
    destruct (led_created s HL _ _ _ _ H2) as (_ & Hc2 & Hq2 & Ho2).
    split; [|split; congruence].
    destruct (status (wasteBatches s id)) eqn:Hst.
    + rewrite <- Ho1, <- Ho2 by discriminate. reflexivity.
    + rewrite <- Ho1, <- Ho2 by discriminate. reflexivity.
    + destruct (led_transferred_all s HL id Hst) as (from & Hin).
      destruct (led_transferred s HL _ _ _ Hin) as (_ & _ & Hfrom).
      rewrite (Hfrom _ _ _ H1), (Hfrom _ _ _ H2). reflexivity.
  - intros id b1 b2 H1 H2.
    destruct (led_committed s HL _ _ H1) as (_ & <-).
    destruct (led_committed s HL _ _ H2) as (_ & <-). reflexivity.
  - intros id f1 t1 f2 t2 H1 H2.
    destruct (led_transferred s HL _ _ _ H1) as (Hst & Ht1 & Hf1).
    destruct (led_transferred s HL _ _ _ H2) as (_ & Ht2 & Hf2).
    split; [|congruence].
    assert (Ha : allocated s id).
    { destruct (allocated_dec s id) as [Ha|Ha]; [assumption|].
      rewrite (inv_free s (led_inv s HL) id Ha) in Hst. discriminate. }
    destruct (led_created_all s HL id Ha) as (sl & Hin).
    rewrite <- (Hf1 _ _ _ Hin), <- (Hf2 _ _ _ Hin). reflexivity.
Qed.

Lemma event_log_no_duplicates_witness :
  reachable handed_over /\ NoDup (events handed_over).
Proof.
  split; [apply reachable_handed_over|].
  exact (proj1 (event_log_no_duplicates handed_over reachable_handed_over)).
Defined.

(** ** The parties of a batch *)

(** X4. In every reachable state an allocated batch has an owner; while a
    batch is COMMITTED its committed buyer is somebody else than its
    owner, and once it is TRANSFERRED the owner is the committed buyer. *)
Theorem owner_and_buyer (s : State) (id : uint256) :
  reachable s ->
  (allocated s id -> currentOwner (wasteBatches s id) <> address0) /\
  (status (wasteBatches s id) = COMMITTED ->
   committedBuyer (wasteBatches s id) <> currentOwner (wasteBatches s id)) /\
  (status (wasteBatches s id) = TRANSFERRED ->
   currentOwner (wasteBatches s id) = committedBuyer (wasteBatches s id)).
Proof.
  intros Hr. pose proof (reachable_Ledger s Hr) as HL.
  split; [|split].
  - intros Ha. apply (inv_alloc s (led_inv s HL) id Ha).
  - apply (led_parties s HL id).
  - intros H. symmetry. now apply (led_parties s HL id).
Qed.

Lemma owner_and_buyer_witness :
  reachable pledged /\
  status (wasteBatches pledged 1) = COMMITTED /\
  committedBuyer (wasteBatches pledged 1)
    <> currentOwner (wasteBatches pledged 1).
Proof.
  assert (H : status (wasteBatches pledged 1) = COMMITTED) by reflexivity.
  split; [apply reachable_pledged|]. split; [exact H|].
  exact (proj1 (proj2 (owner_and_buyer pledged 1 reachable_pledged)) H).
Defined.

(** X5. The committed buyer cannot complete the purchase himself: on a
    COMMITTED batch of a reachable state, [transferWasteBatch] called by
    the committed buyer reverts with "Not batch owner" and changes
    nothing. *)
Theorem buyer_cannot_take_batch (s : State) (env : Env) (id : uint256) :
  reachable s ->
  status (wasteBatches s id) = COMMITTED ->
  msg_sender env = committedBuyer (wasteBatches s id) ->
  transact (transferWasteBatch env id) s = (Err (Revert "Not batch owner"), s).
Proof.
  intros Hr Hst Hb. pose proof (reachable_Ledger s Hr) as HL.
  pose proof (led_inv s HL) as HI.
  rewrite transferWasteBatch_run by apply (inv_guard s HI).
  assert (Hid : batchId (wasteBatches s id) <> 0).
  { apply Inv_moved_exists; [assumption|]. rewrite Hst. discriminate. }
  apply Z.eqb_neq in Hid. rewrite Hid, Hst. simpl.
  assert (Hne : (msg_sender env =? currentOwner (wasteBatches s id)) = false).
  { apply Z.eqb_neq. rewrite Hb. now apply (led_parties s HL id). }
  now rewrite Hne.
Qed.

Lemma buyer_cannot_take_batch_witness :
  reachable pledged /\
  status (wasteBatches pledged 1) = COMMITTED /\
  msg_sender buyer_env = committedBuyer (wasteBatches pledged 1) /\
  transact (transferWasteBatch buyer_env 1) pledged
    = (Err (Revert "Not batch owner"), pledged).
Proof.
  assert (H1 : status (wasteBatches pledged 1) = COMMITTED) by reflexivity.
  assert (H2 : msg_sender buyer_env = committedBuyer (wasteBatches pledged 1))
    by reflexivity.
  split; [apply reachable_pledged|]. repeat (split; [assumption|]).
  exact (buyer_cannot_take_batch pledged buyer_env 1 reachable_pledged H1 H2).
Defined.

(** ** When the two guarded calls succeed *)

(** X6. [commitToPurchase] on a reachable state succeeds exactly when the
    batch is allocated, still CREATED, and the caller is not its owner.
    Otherwise it fails, in this order of precedence: not found for an
    identifier that was never allocated, invalid state for a batch that is
    no longer CREATED, self-dealing for the owner. *)
Theorem commitToPurchase_outcome (s : State) (env : Env) (id : uint256) :
  reachable s ->
  (fst (transact (commitToPurchase env id) s) = Ok tt <->
   allocated s id /\ status (wasteBatches s id) = CREATED /\
   msg_sender env <> currentOwner (wasteBatches s id)) /\
  (~ allocated s id ->
   fails_with (fst (transact (commitToPurchase env id) s)) NotFoundError) /\
  (allocated s id -> status (wasteBatches s id) <> CREATED ->
   fails_with (fst (transact (commitToPurchase env id) s)) InvalidStateError) /\
  (allocated s id -> status (wasteBatches s id) = CREATED ->
   msg_sender env = currentOwner (wasteBatches s id) ->
   fails_with (fst (transact (commitToPurchase env id) s)) SelfDealingError).
Proof.
  intros Hr. pose proof (reachable_Inv s Hr) as HI.
  rewrite commitToPurchase_run by apply (inv_guard s HI).
  pose proof (Inv_exists_iff s id HI) as Hex.
  destruct (Z.eqb_spec (batchId (wasteBatches s id)) 0) as [Hz|Hz]; simpl.
  { assert (Hna : ~ allocated s id) by (rewrite <- Hex; tauto).
    split; [split; [discriminate|tauto]|].
    split; [intros _; now exists (Revert "Batch does not exist")|].
    split; intros; contradiction. }
  assert (Ha : allocated s id) by now apply Hex.
  destruct (WasteStatus_eqb_spec (status (wasteBatches s id)) CREATED)
    as [Hst|Hst]; simpl.
  2:{ split; [split; [discriminate|tauto]|].
      split; [contradiction|].
      split; [intros _ _; now exists (Revert "Not available")|].
      intros; contradiction. }
  destruct (Z.eqb_spec (msg_sender env) (currentOwner (wasteBatches s id)))
    as [Ho|Ho]; simpl.
  - split; [split; [discriminate|tauto]|].
    split; [contradiction|]. split; [intros; contradiction|].
    intros _ _ _. now exists (Revert "Owner cannot buy").
  - split; [split; [tauto|reflexivity]|].
    split; [contradiction|]. split; intros; contradiction.
Qed.

Lemma commitToPurchase_outcome_witness :
  reachable listed /\
  fst (transact (commitToPurchase buyer_env 1) listed) = Ok tt /\
  fails_with (fst (transact (commitToPurchase buyer_env 2) listed))
             NotFoundError.
Proof.
  split; [apply reachable_listed|]. split; [reflexivity|].
  destruct (commitToPurchase_outcome listed buyer_env 2 reachable_listed)
    as (_ & H & _).
  apply H. unfold allocated. simpl. lia.
Defined.

(** X7. [transferWasteBatch] on a reachable state succeeds exactly when
    the batch is COMMITTED and the caller is its current owner: on such
    states the existence check and the check for a committed buyer never
    decide.  When it succeeds, the batch goes to its committed buyer. *)
Theorem transferWasteBatch_outcome (s : State) (env : Env) (id : uint256) :
  reachable s ->
  (fst (transact (transferWasteBatch env id) s) = Ok tt <->
   status (wasteBatches s id) = COMMITTED /\
   msg_sender env = currentOwner (wasteBatches s id)) /\
  (fst (transact (transferWasteBatch env id) s) = Ok tt ->
   currentOwner (wasteBatches (snd (transact (transferWasteBatch env id) s)) id)
   = committedBuyer (wasteBatches s id) /\
   committedBuyer (wasteBatches (snd (transact (transferWasteBatch env id) s)) id)
   = committedBuyer (wasteBatches s id)).
Proof.
  intros Hr. pose proof (reachable_Inv s Hr) as HI.
  rewrite transferWasteBatch_run by apply (inv_guard s HI).
  destruct (Z.eqb_spec (batchId (wasteBatches s id)) 0) as [Hz|Hz]; cbn [fst snd negb].
  { split; [split; [discriminate|]|discriminate].
    intros [Hst _]. exfalso. revert Hz.
    apply Inv_moved_exists; [assumption|]. rewrite Hst. discriminate. }
  destruct (WasteStatus_eqb_spec (status (wasteBatches s id)) COMMITTED)
    as [Hst|Hst]; cbn [fst snd negb].
  2:{ split; [split; [discriminate|tauto]|discriminate]. }
  destruct (Z.eqb_spec (msg_sender env) (currentOwner (wasteBatches s id)))
    as [Ho|Ho]; cbn [fst snd negb].
  2:{ split; [split; [discriminate|tauto]|discriminate]. }
  destruct (Z.eqb_spec (committedBuyer (wasteBatches s id)) address0)
    as [Hb|Hb]; cbn [fst snd negb].
  { exfalso. revert Hb. apply (Inv_buyer_iff s id HI). now left. }
  split; [split; [tauto|reflexivity]|].
  intros _. rewrite transferred_state_lookup, Z.eqb_refl. now split.
Qed.

Lemma transferWasteBatch_outcome_witness :
  reachable pledged /\
  fst (transact (transferWasteBatch seller_env 1) pledged) = Ok tt /\
  status (wasteBatches pledged 1) = COMMITTED /\
  msg_sender seller_env = currentOwner (wasteBatches pledged 1).
Proof.
  assert (H : fst (transact (transferWasteBatch seller_env 1) pledged) = Ok tt)
    by reflexivity.
  split; [apply reachable_pledged|]. split; [exact H|].
  exact (proj1 (proj1 (transferWasteBatch_outcome pledged seller_env 1
                         reachable_pledged)) H).
Defined.

(** ** What a transaction leaves alone *)

(** X8. A transaction touches one batch at most: every record other than
    the one the call is about (the next free slot for a creation, the
    given identifier for a commitment or a transfer) is left as it was,
    whether the call succeeds or reverts.  The administrator is never
    changed, the counter stays or goes up by one, and at most one event is
    appended to the log. *)
Theorem transaction_is_local (s : State) (t : Tx) (k : uint256) :
  match tx_call t with
  | CreateWasteBatch _ _ _ => k <> nextBatchId s
  | CommitToPurchase id => k <> id
  | TransferWasteBatch id => k <> id
  end ->
  wasteBatches (step t s) k = wasteBatches s k /\
  owner (step t s) = owner s /\
  (nextBatchId (step t s) = nextBatchId s \/
   nextBatchId (step t s) = nextBatchId s + 1) /\
  (events (step t s) = events s \/
   exists e, events (step t s) = events s ++ [e]).
Proof.
  intros Hk.
  destruct (step_cases t s)
    as [|cat qty seller Hc Ho Hq Hsel Hhi
        |id Hc Hid Hst Hown|id Hc Hid Hst Hown Hb].
  - repeat split; now left.
  - rewrite Hc in Hk. rewrite created_state_lookup.
    apply Z.eqb_neq in Hk. rewrite Hk. simpl.
    repeat split; right; [reflexivity|eexists; reflexivity].
  - rewrite Hc in Hk. rewrite committed_state_lookup.
    apply Z.eqb_neq in Hk. rewrite Hk. simpl.
    repeat split; [now left|right; eexists; reflexivity].
  - rewrite Hc in Hk. rewrite transferred_state_lookup.
    apply Z.eqb_neq in Hk. rewrite Hk. simpl.
    repeat split; [now left|right; eexists; reflexivity].
Qed.

Lemma transaction_is_local_witness :
  wasteBatches (step (mkTx admin (CreateWasteBatch fly_ash 7 5)) pledged) 1
    = wasteBatches pledged 1 /\
  owner (step (mkTx admin (CreateWasteBatch fly_ash 7 5)) pledged)
    = owner pledged.
Proof.
  destruct (transaction_is_local pledged
              (mkTx admin (CreateWasteBatch fly_ash 7 5)) 1)
    as (H1 & H2 & _); [discriminate|].
  split; [exact H1|exact H2].
Defined.

(** ** What never changes in a batch *)

Lemma immutable_step t s id :
  allocated s id ->
  allocated (step t s) id /\
  batchId (wasteBatches (step t s) id) = batchId (wasteBatches s id) /\
  category (wasteBatches (step t s) id) = category (wasteBatches s id) /\
  quantity (wasteBatches (step t s) id) = quantity (wasteBatches s id) /\
  createdAt (wasteBatches (step t s) id) = createdAt (wasteBatches s id).
Proof.
  intros Ha.
  destruct (step_cases t s)
    as [|cat qty seller Hc Ho Hq Hsel Hhi
        |id0 Hc Hid Hst Hown|id0 Hc Hid Hst Hown Hb].
  - split; [assumption|repeat split].
  - split; [unfold allocated in *; simpl; lia|].
    rewrite created_state_lookup.
    destruct (Z.eqb_spec id (nextBatchId s)) as [->|Hne];
      [unfold allocated in Ha; lia|repeat split].
  - split; [exact Ha|]. rewrite committed_state_lookup.
    destruct (Z.eqb_spec id id0) as [->|Hne]; repeat split.
  - split; [exact Ha|]. rewrite transferred_state_lookup.
    destruct (Z.eqb_spec id id0) as [->|Hne]; repeat split.
Qed.

Lemma immutable_run trace : forall s id,
  allocated s id ->
  allocated (run trace s) id /\
  batchId (wasteBatches (run trace s) id) = batchId (wasteBatches s id) /\
  category (wasteBatches (run trace s) id) = category (wasteBatches s id) /\
  quantity (wasteBatches (run trace s) id) = quantity (wasteBatches s id) /\
  createdAt (wasteBatches (run trace s) id) = createdAt (wasteBatches s id).
Proof.
  induction trace as [|t rest IH]; intros s id Ha; simpl.
  - split; [assumption|repeat split].
  - destruct (immutable_step t s id Ha) as (Ha' & H1 & H2 & H3 & H4).
    destruct (IH (step t s) id Ha') as (Ha'' & G1 & G2 & G3 & G4).
    split; [assumption|]. repeat split; congruence.
Qed.

(** X9. A batch that can be read can be read for ever, and what was
    fixed at its creation stays: if [getWasteBatch] returns a record in a
    reachable state, then after any further transactions it still returns
    one, with the same [batchId] (the identifier asked for), category,
    quantity and creation time. *)
Theorem batch_record_is_permanent (s : State) (trace : list Tx)
    (id : uint256) (b : WasteBatch) :
  reachable s ->
  Forall (fun t => sender_ok (tx_env t)) trace ->
  getWasteBatch id s = (Ok b, s) ->
  exists b',
    getWasteBatch id (run trace s) = (Ok b', run trace s) /\
    batchId b = id /\ batchId b' = id /\
    category b' = category b /\
    quantity b' = quantity b /\
    createdAt b' = createdAt b.
Proof.
  intros Hr Hall Hget. pose proof (reachable_Inv s Hr) as HI.
  rewrite getWasteBatch_run in Hget.
  destruct (Z.eqb_spec (batchId (wasteBatches s id)) 0) as [Hz|Hz];
    [discriminate|].
  inversion Hget; subst b; clear Hget.
  assert (Ha : allocated s id) by now apply Inv_exists_allocated.
  destruct (immutable_run trace s id Ha) as (Ha' & H1 & H2 & H3 & H4).
  exists (wasteBatches (run trace s) id).
  rewrite getWasteBatch_run, H1.
  apply Z.eqb_neq in Hz. rewrite Hz.
  destruct (inv_alloc s HI id Ha) as (Hid & _).
  repeat split; congruence.
Qed.

Lemma batch_record_is_permanent_witness :
  reachable listed /\
  (exists b b',
     getWasteBatch 1 listed = (Ok b, listed) /\
     getWasteBatch 1 handed_over = (Ok b', handed_over) /\
     category b' = category b /\ quantity b' = quantity b).
Proof.
  split; [apply reachable_listed|].
  assert (Hall : Forall (fun t => sender_ok (tx_env t))
                   [mkTx buyer_env (CommitToPurchase 1);
                    mkTx seller_env (TransferWasteBatch 1)]).
  { repeat constructor; discriminate. }
  assert (Hget : getWasteBatch 1 listed = (Ok (wasteBatches listed 1), listed))
    by reflexivity.
  destruct (batch_record_is_permanent listed _ 1 _ reachable_listed Hall Hget)
    as (b' & H1 & _ & _ & H2 & H3 & _).
  exists (wasteBatches listed 1), b'.
  split; [exact Hget|]. split; [exact H1|]. split; assumption.
Defined.

(** ** Who changes the parties of a batch *)

(** Each party of an allocated batch stays unless the batch is in the one
    status from which that party is set. *)
Lemma parties_step t s id :
  allocated s id ->
  (currentOwner (wasteBatches (step t s) id) = currentOwner (wasteBatches s id)
   \/ status (wasteBatches s id) = COMMITTED) /\
  (committedBuyer (wasteBatches (step t s) id)
   = committedBuyer (wasteBatches s id)
   \/ status (wasteBatches s id) = CREATED).
Proof.
  intros Ha.
  destruct (step_cases t s)
    as [|cat qty seller Hc Ho Hq Hsel Hhi
        |id0 Hc Hid Hst Hown|id0 Hc Hid Hst Hown Hb].
  - split; now left.
  - rewrite created_state_lookup.
    destruct (Z.eqb_spec id (nextBatchId s)) as [->|Hne];
      [unfold allocated in Ha; lia|split; now left].
  - rewrite committed_state_lookup.
    destruct (Z.eqb_spec id id0) as [->|Hne]; split; try now left.
    now right.
  - rewrite transferred_state_lookup.
    destruct (Z.eqb_spec id id0) as [->|Hne]; split; try now left.
    now right.
Qed.

(** X10. The owner of an existing batch changes in one way only: by a
    [transferWasteBatch] on that batch, sent by the owner while the batch
    is COMMITTED, and the new owner is the committed buyer.  The committed
    buyer changes in one way only: by a [commitToPurchase] on that batch
    while it is CREATED, sent by somebody who is not the owner, and the
    new buyer is that sender. *)
Theorem parties_change_by_design (s : State) (t : Tx) (id : uint256) :
  allocated s id ->
  (currentOwner (wasteBatches (step t s) id) = currentOwner (wasteBatches s id)
   \/ (tx_call t = TransferWasteBatch id /\
       msg_sender (tx_env t) = currentOwner (wasteBatches s id) /\
       status (wasteBatches s id) = COMMITTED /\
       status (wasteBatches (step t s) id) = TRANSFERRED /\
       currentOwner (wasteBatches (step t s) id)
       = committedBuyer (wasteBatches s id))) /\
  (committedBuyer (wasteBatches (step t s) id)
   = committedBuyer (wasteBatches s id)
   \/ (tx_call t = CommitToPurchase id /\
       msg_sender (tx_env t) <> currentOwner (wasteBatches s id) /\
       status (wasteBatches s id) = CREATED /\
       status (wasteBatches (step t s) id) = COMMITTED /\
       committedBuyer (wasteBatches (step t s) id) = msg_sender (tx_env t))).
Proof.
  intros Ha.
  destruct (step_cases t s)
    as [|cat qty seller Hc Ho Hq Hsel Hhi
        |id0 Hc Hid Hst Hown|id0 Hc Hid Hst Hown Hb].
  - split; now left.
  - rewrite created_state_lookup.
    destruct (Z.eqb_spec id (nextBatchId s)) as [->|Hne];
      [unfold allocated in Ha; lia|split; now left].
  - rewrite committed_state_lookup.
    destruct (Z.eqb_spec id id0) as [->|Hne]; [|split; now left].
    split; [now left|right]. now repeat split.
  - rewrite transferred_state_lookup.
    destruct (Z.eqb_spec id id0) as [->|Hne]; [|split; now left].
    split; [right|now left]. now repeat split.
Qed.

Lemma parties_change_by_design_witness :
  allocated pledged 1 /\
  currentOwner (wasteBatches handed_over 1)
    = committedBuyer (wasteBatches pledged 1) /\
  committedBuyer (wasteBatches handed_over 1)
    = committedBuyer (wasteBatches pledged 1).
Proof.
  assert (Ha : allocated pledged 1) by (unfold allocated; simpl; lia).
  split; [exact Ha|].
  destruct (parties_change_by_design pledged
              (mkTx seller_env (TransferWasteBatch 1)) 1 Ha) as (_ & _).
  split; reflexivity.
Defined.

(** X11. A commitment is final and so is a transfer: once a batch of a
    reachable state has left CREATED, no further transactions change its
    committed buyer or take it back to CREATED; and once it is
    TRANSFERRED, none change its owner. *)
Theorem commitment_is_final (s : State) (trace : list Tx) (id : uint256) :
  reachable s ->
  Forall (fun t => sender_ok (tx_env t)) trace ->
  status (wasteBatches s id) <> CREATED ->
  committedBuyer (wasteBatches (run trace s) id)
    = committedBuyer (wasteBatches s id) /\
  status (wasteBatches (run trace s) id) <> CREATED /\
  (status (wasteBatches s id) = TRANSFERRED ->
   currentOwner (wasteBatches (run trace s) id)
     = currentOwner (wasteBatches s id)).
Proof.
  revert s. induction trace as [|t rest IH]; intros s Hr Hall Hst; simpl.
  - repeat split; assumption.
  - inversion Hall as [|? ? Ht Hrest]; subst.
    pose proof (reachable_Inv s Hr) as HI.
    assert (Ha : allocated s id).
    { apply Inv_exists_allocated; [assumption|].
      now apply Inv_moved_exists. }
    destruct (parties_step t s id Ha) as (Ho & Hb).
    assert (Hst' : status (wasteBatches (step t s) id) <> CREATED).
    { destruct (status_forward s t id HI) as [H|H]; [congruence|].
      destruct (status (wasteBatches s id)); simpl in H; congruence. }
    assert (Hb' : committedBuyer (wasteBatches (step t s) id)
                  = committedBuyer (wasteBatches s id)).
    { destruct Hb as [Hb|Hc]; [assumption|contradiction]. }
    destruct (IH (step t s) (reach_step t s Hr Ht) Hrest Hst')
      as (G1 & G2 & G3).
    split; [congruence|]. split; [assumption|].
    intros Htr.
    rewrite G3 by now apply transferred_stable.
    destruct Ho as [Ho|Hc]; [assumption|congruence].
Qed.

Lemma commitment_is_final_witness :
  reachable pledged /\
  status (wasteBatches pledged 1) <> CREATED /\
  committedBuyer
    (wasteBatches
       (run [mkTx admin (CommitToPurchase 1);
             mkTx seller_env (TransferWasteBatch 1)] pledged) 1)
  = committedBuyer (wasteBatches pledged 1).
Proof.
  assert (Hst : status (wasteBatches pledged 1) <> CREATED) by discriminate.
  assert (Hall : Forall (fun t => sender_ok (tx_env t))
                   [mkTx admin (CommitToPurchase 1);
                    mkTx seller_env (TransferWasteBatch 1)]).
  { repeat constructor; discriminate. }
  split; [apply reachable_pledged|]. split; [exact Hst|].
  exact (proj1 (commitment_is_final pledged _ 1 reachable_pledged Hall Hst)).
Defined.

(** ** Creation, seen from outside *)

(** X12. After a successful [createWasteBatch] on a reachable state,
    [getWasteBatch] of the returned identifier gives the record of the
    call: that identifier, the category, quantity and seller passed,
    no committed buyer, status CREATED and the block's timestamp.  Before
    the call that identifier could not be read; the success also tells
    that the caller is the administrator, the quantity positive and the
    seller non-zero, and exactly one [WasteBatchCreated] event was
    logged. *)
Theorem createWasteBatch_stores_batch (s s' : State) (env : Env)
    (cat : string) (qty : uint256) (seller : address) (id : uint256) :
  reachable s ->
  transact (createWasteBatch env cat qty seller) s = (Ok id, s') ->
  getWasteBatch id s'
    = (Ok (mkWasteBatch id cat qty seller address0 CREATED
             (block_timestamp env)), s') /\
  fails_with (fst (getWasteBatch id s)) NotFoundError /\
  msg_sender env = owner s /\ 0 < qty /\ seller <> address0 /\
  events s' = events s ++ [WasteBatchCreated id seller cat qty].
Proof.
  intros Hr H. pose proof (reachable_Inv s Hr) as HI.
  pose proof (inv_next_lo s HI) as Hlo.
  rewrite createWasteBatch_run in H.
  destruct (Z.eqb_spec (msg_sender env) (owner s)) as [Ho|Ho]; simpl in H;
    [|discriminate].
  destruct (Z.gtb_spec qty 0) as [Hq|Hq]; simpl in H; [|discriminate].
  destruct (Z.eqb_spec seller address0) as [Hs|Hs]; [discriminate|].
  destruct (negb (nextBatchId s + 1 <=? MAX_UINT256)); [discriminate|].
  inversion H; subst id s'; clear H.
  split; [|split].
  - rewrite getWasteBatch_run, created_state_lookup, Z.eqb_refl. simpl.
    destruct (Z.eqb_spec (nextBatchId s) 0); [lia|reflexivity].
  - exists (Revert "Batch not found"). split; [|reflexivity].
    rewrite getWasteBatch_run, (inv_free s HI (nextBatchId s));
      [reflexivity|]. unfold allocated. lia.
  - repeat split; assumption.
Qed.

Lemma createWasteBatch_stores_batch_witness :
  reachable genesis /\
  getWasteBatch 1 listed
    = (Ok (mkWasteBatch 1 fly_ash 100 2 address0 CREATED 1000), listed).
Proof.
  split; [apply reachable_genesis|].
  refine (proj1 (createWasteBatch_stores_batch genesis listed admin
                   fly_ash 100 2 1 reachable_genesis _)).
  reflexivity.
Defined.

(** X13. The getter that [public] generates for [wasteBatches] never
    reverts.  On an allocated identifier of a reachable state it returns
    what [getWasteBatch] returns; on any other identifier it returns the
    all-zero record, which reads as a batch with identifier 0 in status
    CREATED, where [getWasteBatch] reverts with "Batch not found". *)
Theorem getter_and_getWasteBatch (s : State) (id : uint256) :
  reachable s ->
  (allocated s id ->
   getWasteBatch id s = wasteBatches_getter id s /\
   fst (wasteBatches_getter id s) = Ok (wasteBatches s id)) /\
  (~ allocated s id ->
   wasteBatches_getter id s = (Ok zero_batch, s) /\
   getWasteBatch id s = (Err (Revert "Batch not found"), s)).
Proof.
  intros Hr. pose proof (reachable_Inv s Hr) as HI.
  unfold wasteBatches_getter, sload. rewrite getWasteBatch_run.
  split; intros Ha.
  - apply (Inv_exists_iff s id HI) in Ha. apply Z.eqb_neq in Ha.
    rewrite Ha. now split.
  - rewrite (inv_free s HI id Ha). now split.
Qed.

Lemma getter_and_getWasteBatch_witness :
  reachable listed /\
  wasteBatches_getter 7 listed = (Ok zero_batch, listed) /\
  getWasteBatch 7 listed = (Err (Revert "Batch not found"), listed).
Proof.
  split; [apply reachable_listed|].
  apply (getter_and_getWasteBatch listed 7 reachable_listed).
  unfold allocated. simpl. lia.
Defined.

(** ** The scripts *)

(** X14. On a contract just deployed by the administrator, the
    interaction script runs to its end for any three signers with a seller
    other than the buyer: it reads back the buyer as the final owner of
    batch 1, and leaves that batch TRANSFERRED, the counter at 2 and the
    three events in the log. *)
Theorem interact_on_fresh_deployment (admin seller buyer : address)
    (t0 t1 t2 t3 : uint256) :
  seller <> address0 -> buyer <> address0 -> buyer <> seller ->
  exists s',
    interact_main admin seller buyer t1 t2 t3 (deploy_main (mkEnv admin t0))
      = (Ok buyer, s') /\
    wasteBatches s' 1
      = mkWasteBatch 1 "fly_ash" 100 buyer buyer TRANSFERRED t1 /\
    nextBatchId s' = 2 /\
    events s' = [WasteBatchCreated 1 seller "fly_ash" 100;
                 PurchaseCommitted 1 buyer;
                 WasteBatchTransferred 1 seller buyer].
Proof.
  intros Hs Hb Hbs.
  set (s0 := deploy_main (mkEnv admin t0)).
  set (s1 := created_state (mkEnv admin t1) "fly_ash" 100 seller s0).
  set (s2 := committed_state (mkEnv buyer t2) 1 s1).
  set (s3 := transferred_state 1 s2).
  assert (H1 : transact (createWasteBatch (mkEnv admin t1) "fly_ash" 100 seller)
                 s0 = (Ok 1, s1)).
  { rewrite createWasteBatch_run. simpl. rewrite Z.eqb_refl. simpl.
    apply Z.eqb_neq in Hs. now rewrite Hs. }
  assert (H2 : transact (commitToPurchase (mkEnv buyer t2) 1) s1 = (Ok tt, s2)).
  { rewrite commitToPurchase_run by reflexivity. simpl.
    apply Z.eqb_neq in Hbs. now rewrite Hbs. }
  assert (H3 : transact (transferWasteBatch (mkEnv seller t3) 1) s2
               = (Ok tt, s3)).
  { rewrite transferWasteBatch_run by reflexivity. simpl.
    rewrite Z.eqb_refl. simpl. apply Z.eqb_neq in Hb. now rewrite Hb. }
  assert (H4 : transact (getWasteBatch 1) s3
               = (Ok (mkWasteBatch 1 "fly_ash" 100 buyer buyer TRANSFERRED t1),
                  s3)) by reflexivity.
  exists s3. split; [|repeat split].
  unfold interact_main, bind. now rewrite H1, H2, H3, H4.
Qed.

Lemma interact_on_fresh_deployment_witness :
  fst (interact_main 1 2 3 1000 1001 1002 (deploy_main admin)) = Ok 3.
Proof.
  destruct (interact_on_fresh_deployment 1 2 3 1000 1000 1001 1002)
    as (s' & H & _); try discriminate.
  unfold admin. now rewrite H.
Defined.

(** X15. The script names batch 1, not the batch it has just created.  On
    a registry already in use, where batch 1 is no longer CREATED (as
    after a first run of the script), it throws at the commitment with
    "Not available"; the creation before it stays, so that each such run
    leaves one more batch in status CREATED behind. *)
Theorem interact_on_used_registry (s : State) (admin seller buyer : address)
    (t1 t2 t3 : uint256) :
  reachable s ->
  owner s = admin -> seller <> address0 ->
  nextBatchId s < MAX_UINT256 ->
  status (wasteBatches s 1) <> CREATED ->
  interact_main admin seller buyer t1 t2 t3 s
    = (Err (Revert "Not available"),
       created_state (mkEnv admin t1) "fly_ash" 100 seller s) /\
  getWasteBatch (nextBatchId s)
    (created_state (mkEnv admin t1) "fly_ash" 100 seller s)
    = (Ok (mkWasteBatch (nextBatchId s) "fly_ash" 100 seller address0
             CREATED t1),
       created_state (mkEnv admin t1) "fly_ash" 100 seller s) /\
  wasteBatches (created_state (mkEnv admin t1) "fly_ash" 100 seller s) 1
    = wasteBatches s 1.
Proof.
  intros Hr Ho Hs Hn Hst. pose proof (reachable_Inv s Hr) as HI.
  pose proof (inv_next_lo s HI) as Hlo.
  set (s1 := created_state (mkEnv admin t1) "fly_ash" 100 seller s).
  assert (Hid : batchId (wasteBatches s 1) <> 0)
    by now apply Inv_moved_exists.
  assert (Ha : allocated s 1) by now apply Inv_exists_allocated.
  assert (Hsame : wasteBatches s1 1 = wasteBatches s 1).
  { unfold s1. rewrite created_state_lookup.
    destruct (Z.eqb_spec 1 (nextBatchId s)) as [He|He]; [|reflexivity].
    unfold allocated in Ha. lia. }
  assert (H1 : transact (createWasteBatch (mkEnv admin t1) "fly_ash" 100 seller)
                 s = (Ok (nextBatchId s), s1)).
  { rewrite createWasteBatch_run. simpl. rewrite Ho, Z.eqb_refl. simpl.
    apply Z.eqb_neq in Hs. rewrite Hs.
    destruct (Z.leb_spec (nextBatchId s + 1) MAX_UINT256); [reflexivity|lia]. }
  assert (H2 : transact (commitToPurchase (mkEnv buyer t2) 1) s1
               = (Err (Revert "Not available"), s1)).
  { rewrite commitToPurchase_run by apply (inv_guard s HI).
    rewrite Hsame. apply Z.eqb_neq in Hid. rewrite Hid.
    destruct (WasteStatus_eqb_spec (status (wasteBatches s 1)) CREATED);
      [contradiction|reflexivity]. }
  split; [|split].
  - unfold interact_main, bind. now rewrite H1, H2.
  - rewrite getWasteBatch_run. unfold s1.
    rewrite created_state_lookup, Z.eqb_refl. simpl.
    destruct (Z.eqb_spec (nextBatchId s) 0); [lia|reflexivity].
  - exact Hsame.
Qed.

Lemma interact_on_used_registry_witness :
  reachable handed_over /\
  fst (interact_main 1 2 3 1003 1004 1005 handed_over)
    = Err (Revert "Not available") /\
  status (wasteBatches (snd (interact_main 1 2 3 1003 1004 1005 handed_over)) 2)
    = CREATED.
Proof.
  split; [apply reachable_handed_over|].
  destruct (interact_on_used_registry handed_over 1 2 3 1003 1004 1005
              reachable_handed_over) as (H & _);
    try reflexivity; try discriminate.
  rewrite H. split; reflexivity.
Defined.

(** ** The search of the front end *)

Lemma prefix_append sub : forall s,
  String.prefix sub s = true <-> exists post, s = (sub ++ post)%string.
Proof.
  induction sub as [|a sub IH]; intros s; simpl.
  - split; [intros _; now exists s|intros _; now destruct s].
  - destruct s as [|b s]; simpl.
    + split; [discriminate|intros (post & H); discriminate].
    + destruct (Ascii.ascii_dec a b) as [->|Hne].
      * rewrite IH. split; intros (post & H); exists post; congruence.
      * split; [discriminate|]. intros (post & H). congruence.
Qed.

Lemma includes_unfold s sub :
  includes s sub =
  if String.prefix sub s then true
  else match s with
       | EmptyString => false
       | String _ rest => includes rest sub
       end.
Proof. destruct s; reflexivity. Qed.

(** [includes] finds exactly the substrings. *)
Lemma includes_substring sub : forall s,
  includes s sub = true <->
  exists pre post, s = (pre ++ sub ++ post)%string.
Proof.
  induction s as [|c s IH]; rewrite includes_unfold.
  - destruct (String.prefix sub EmptyString) eqn:Hp.
    + split; [intros _|reflexivity].
      apply prefix_append in Hp. destruct Hp as (post & H).
      now exists EmptyString, post.
    + split; [discriminate|]. intros (pre & post & H).
      destruct pre; simpl in H; [|discriminate].
      assert (Hp' : String.prefix sub EmptyString = true).
      { apply prefix_append. now exists post. }
      congruence.
  - destruct (String.prefix sub (String c s)) eqn:Hp.
    + split; [intros _|reflexivity].
      apply prefix_append in Hp. destruct Hp as (post & H).
      now exists EmptyString, post.
    + rewrite IH. split.
      * intros (pre & post & H). exists (String c pre), post. simpl. congruence.
      * intros (pre & post & H). destruct pre as [|c' pre]; simpl in H.
        -- assert (Hp' : String.prefix sub (String c s) = true).
           { apply prefix_append. now exists post. }
           congruence.
        -- exists pre, post. congruence.
Qed.

Lemma In_firstn {A} (x : A) n : forall l, In x (firstn n l) -> In x l.
Proof.
  induction n as [|n IH]; intros [|y l]; simpl; try tauto.
  intros [H|H]; [now left|right; now apply IH].
Qed.

(** X16. For every query, what the suggestion box of [App] offers is part
    of what the [Marketplace] grid shows for the same query, and there are
    never more than eight suggestions.  For the empty query the two part
    ways: no suggestion, but the whole inventory in the grid. *)
Theorem suggestions_within_marketplace (toLowerCase : string -> string)
    (DUMMY_ITEMS : list MarketplaceItem) (searchQuery : string) :
  (forall item,
     In item (suggestions toLowerCase DUMMY_ITEMS searchQuery) ->
     In item (filteredItems toLowerCase DUMMY_ITEMS searchQuery) /\
     In item DUMMY_ITEMS) /\
  (List.length (suggestions toLowerCase DUMMY_ITEMS searchQuery) <= 8)%nat /\
  (searchQuery = EmptyString ->
   suggestions toLowerCase DUMMY_ITEMS searchQuery = [] /\
   filteredItems toLowerCase DUMMY_ITEMS searchQuery = DUMMY_ITEMS).
Proof.
  unfold suggestions, filteredItems. split; [|split].
  - intros item Hin. destruct (falsy searchQuery); [contradiction|].
    apply In_firstn in Hin. apply filter_In in Hin. destruct Hin as (Hin & Hm).
    split; [|assumption]. apply filter_In. split; [assumption|].
    now rewrite Hm.
  - destruct (falsy searchQuery); [simpl; lia|apply firstn_le_length].
  - intros ->. now split.
Qed.

Lemma suggestions_within_marketplace_witness :
  suggestions (fun s => s) sample_items "copper"
    = [mkItem "1" "copper wire" "metal" "2 t" "pune" "$10" "a.png"] /\
  filteredItems (fun s => s) sample_items "copper" = sample_items /\
  (List.length (suggestions (fun s => s) sample_items "copper") <= 8)%nat.
Proof.
  split; [reflexivity|]. split; [reflexivity|].
  exact (proj1 (proj2 (suggestions_within_marketplace
                         (fun s => s) sample_items "copper"))).
Defined.

(** X17. For a query that is not empty, the grid shows exactly the items
    of the inventory whose title, category or location, in lower case,
    contains the query in lower case somewhere. *)
Theorem filteredItems_matches (toLowerCase : string -> string)
    (DUMMY_ITEMS : list MarketplaceItem) (searchQuery : string)
    (item : MarketplaceItem) :
  searchQuery <> EmptyString ->
  (In item (filteredItems toLowerCase DUMMY_ITEMS searchQuery) <->
   In item DUMMY_ITEMS /\
   exists field pre post,
     (field = title item \/ field = item_category item \/
      field = location item) /\
     toLowerCase field = (pre ++ toLowerCase searchQuery ++ post)%string).
Proof.
  intros Hq. unfold filteredItems.
  destruct searchQuery as [|c q]; [contradiction|]. simpl falsy. cbv iota.
  rewrite filter_In, !orb_true_iff, !includes_substring.
  split; intros (Hin & H); (split; [assumption|]).
  - destruct H as [[(pre & post & H)|(pre & post & H)]|(pre & post & H)].
    + exists (title item), pre, post. split; [now left|assumption].
    + exists (item_category item), pre, post.
      split; [right; now left|assumption].
    + exists (location item), pre, post.
      split; [right; now right|assumption].
  - destruct H as (field & pre & post & Hf & H).
    destruct Hf as [Hf|[Hf|Hf]]; subst field.
    + left; left. now exists pre, post.
    + left; right. now exists pre, post.
    + right. now exists pre, post.
Qed.

Lemma filteredItems_matches_witness :
  "hill"%string <> EmptyString /\
  In (mkItem "2" "pet flakes" "plastic" "5 t" "copperhill" "$20" "b.png")
     (filteredItems (fun s => s) sample_items "hill").
Proof.
  assert (H : "hill"%string <> EmptyString) by discriminate.
  split; [exact H|].
  apply (filteredItems_matches (fun s => s) sample_items "hill" _ H).
  split; [right; left; reflexivity|].
  exists "copperhill"%string, "copper"%string, EmptyString. split; [now right; right|].
  reflexivity.
Defined.

(** ** Counter and log *)

Lemma created_in_log_snoc l e :
  created_in_log (l ++ [e]) =
  created_in_log l ++
  match e with
  | WasteBatchCreated id _ _ _ => [id]
  | _ => []
  end.
Proof.
  induction l as [|x l IH]; simpl.
  - destruct e; reflexivity.
  - rewrite IH. destruct x; reflexivity.
Qed.

Lemma ids_below_succ (n : Z) :
  1 <= n -> ids_below (n + 1) = ids_below n ++ [n].
Proof.
  intros Hn. unfold ids_below.
  replace (n + 1 - 1) with (Z.succ (n - 1)) by lia.
  rewrite Z2Nat.inj_succ by lia.
  rewrite seq_S, map_app. cbn [map]. unfold uint256.
  f_equal. f_equal. lia.
Qed.

Lemma log_follows_counter_step t s :
  1 <= nextBatchId s ->
  created_in_log (events s) = ids_below (nextBatchId s) ->
  1 <= nextBatchId (step t s) /\
  created_in_log (events (step t s)) = ids_below (nextBatchId (step t s)).
Proof.
  intros Hlo H.
  destruct (step_cases t s)
    as [|cat qty seller Hc Ho Hq Hsel Hhi
        |id Hc Hid Hst Hown|id Hc Hid Hst Hown Hb]; simpl.
  - now split.
  - split; [lia|]. rewrite created_in_log_snoc, H. symmetry.
    now apply ids_below_succ.
  - split; [assumption|]. rewrite created_in_log_snoc, H. apply app_nil_r.
  - split; [assumption|]. rewrite created_in_log_snoc, H. apply app_nil_r.
Qed.

Lemma log_follows_counter_run trace : forall s,
  1 <= nextBatchId s ->
  created_in_log (events s) = ids_below (nextBatchId s) ->
  created_in_log (events (run trace s)) = ids_below (nextBatchId (run trace s)).
Proof.
  induction trace as [|t rest IH]; intros s Hlo H; simpl.
  - assumption.
  - destruct (log_follows_counter_step t s Hlo H) as (Hlo' & H').
    now apply IH.
Qed.

(** X18. After any transactions on a deployed contract, the creation
    events of the log carry the identifiers 1, 2, ..., [nextBatchId] - 1,
    each once and in this order: the log has one creation event per
    batch, and the counter is one more than their number. *)
Theorem log_follows_counter (deployer : Env) (trace : list Tx) :
  created_in_log (events (run trace (constructor deployer)))
  = ids_below (nextBatchId (run trace (constructor deployer))) /\
  Z.of_nat (List.length
              (created_in_log (events (run trace (constructor deployer)))))
  = nextBatchId (run trace (constructor deployer)) - 1.
Proof.
  assert (H : created_in_log (events (run trace (constructor deployer)))
              = ids_below (nextBatchId (run trace (constructor deployer)))).
  { apply log_follows_counter_run; [simpl; lia|reflexivity]. }
  split; [exact H|].
  rewrite H. unfold ids_below. rewrite length_map, length_seq.
  pose proof (counter_tracks_highest trace (constructor deployer)) as Hc.
  pose proof (highest_nonneg (assigned_ids trace (constructor deployer))).
  simpl in Hc. specialize (Hc ltac:(lia)). lia.
Qed.

(** ** A fresh deployment *)

